(** * react-credit-card-input: the card-number formatter and its edit guard

    A shallow embedding of [src/CardInput/index.js]: the pattern selector
    [getPatternFromNumber], the digit test [isNumber], the formatting walk of
    [formatNumber] and the change handler [manageChange] of the [CardInput]
    component, followed by the properties the specification states about
    them.

    JavaScript strings are modelled as [string], one [ascii] per code unit:
    the source only ever compares a character with the digits, the space,
    the placeholder and the keys of its table. A value that may be
    [undefined] is an [option]; the cursor offsets are integers ([Z]), the two
    walk indices [i] and [j] are naturals. *)

From Stdlib Require Import String Ascii List ZArith Lia Bool Arith.
Import ListNotations.
Local Open Scope string_scope.
Local Open Scope list_scope.
Local Open Scope nat_scope.

(** The digit characters: ['0'] to ['9'], by character code. *)
Definition is_digit (c : ascii) : bool :=
  (48 <=? nat_of_ascii c) && (nat_of_ascii c <=? 57).

(** ** The JavaScript operations the source relies on *)

Module JS.

(** A string or [undefined]; a character is a string of length one. *)
Definition value := option string.

(** [s[i]] *)
Definition index (s : string) (i : nat) : value :=
  option_map (fun c => String c EmptyString) (String.get i s).

(** [s[z]] for a numeric index that need not be a valid offset. *)
Definition indexZ (s : string) (z : Z) : value :=
  if (z <? 0)%Z then None else index s (Z.to_nat z).

(** ['' + v] *)
Definition to_string (v : value) : string :=
  match v with
  | Some s => s
  | None => "undefined"
  end.

(** [a || b] where [a] is a string or [undefined]: the empty string and
    [undefined] are the falsy ones. *)
Definition or_else (a : value) (b : string) : string :=
  match a with
  | Some EmptyString | None => b
  | Some s => s
  end.

(** [a === s] for a string literal [s]. *)
Definition strict_eq (a : value) (s : string) : bool :=
  match a with
  | Some t => String.eqb t s
  | None => false
  end.

(** [s.indexOf(sub)] *)
Definition indexOf (s sub : string) : Z :=
  match String.index 0 sub s with
  | Some n => Z.of_nat n
  | None => (-1)%Z
  end.

(** [obj[key]] on an object literal given as its list of properties. Only
    the literal's own properties are looked up: the keys used are single
    characters, which name nothing on the prototype. *)
Fixpoint prop (obj : list (string * string)) (key : string) : value :=
  match obj with
  | [] => None
  | (k, v) :: rest => if String.eqb k key then Some v else prop rest key
  end.

(** An array of character values; [None] is a hole. *)
Definition array := list value.

(** [a[j] = x]: overwrites inside the array, appends at its length, and
    past its length leaves holes before the new element. *)
Definition array_set (a : array) (j : nat) (x : value) : array :=
  if (j <? List.length a)%nat
  then firstn j a ++ x :: skipn (S j) a
  else a ++ repeat None (j - List.length a) ++ [x].

(** [a.join('')]: holes and [undefined] contribute nothing. *)
Fixpoint join (a : array) : string :=
  match a with
  | [] => EmptyString
  | Some s :: rest => (s ++ join rest)%string
  | None :: rest => join rest
  end.

(** [/[^0-9 ]/.test(s)] *)
Definition test_not_digit_or_space (s : string) : bool :=
  existsb (fun c => negb (is_digit c || Ascii.eqb c " "%char))
          (list_ascii_of_string s).

(** [s.substring(a, b)]: both offsets are clamped to the string and swapped
    when out of order. *)
Definition clamp (len : nat) (z : Z) : nat :=
  Z.to_nat (Z.min (Z.of_nat len) (Z.max 0 z)).

Definition substring (s : string) (a b : Z) : string :=
  let a' := clamp (String.length s) a in
  let b' := clamp (String.length s) b in
  String.substring (Nat.min a' b') (Nat.max a' b' - Nat.min a' b') s.

(** [/\d/.test(s)] *)
Definition test_digit (s : string) : bool :=
  existsb is_digit (list_ascii_of_string s).

End JS.

(** ** Pattern selector *)

Definition patterns : list (string * string) :=
  [ ("0", "###################");
    ("2", "#### #### #### ####");
    ("3", "#### ###### #####");
    ("4", "#### #### #### #### ###");
    ("5", "#### #### #### ####");
    ("6", "#### #### #### ####") ].

(** [number] is the argument after its coercion ['' + number]. The table
    has the property ['0'], so the innermost default is never reached. *)
Definition getPatternFromNumber (number : string) : string :=
  let firstDigit := JS.or_else (JS.index number 0) "0" in
  JS.or_else (JS.prop patterns firstDigit)
             (JS.or_else (JS.prop patterns "0") EmptyString).

Definition isNumber (value : JS.value) : bool :=
  negb (JS.indexOf "0123456789" (JS.to_string value) =? -1)%Z.

(** ** Formatter *)

(** The argument of [formatNumber]: any of the three properties may be
    missing. *)
Record FormatArgs := mkArgs {
  arg_value : option string;
  arg_selectionStart : option Z;
  arg_selectionEnd : option Z
}.

(** A value with its cursor range: the result of [formatNumber], the
    component's [inputState], and the part of the input element the handlers
    read. *)
Record Selection := mkSelection {
  value : string;
  selectionStart : Z;
  selectionEnd : Z
}.

Record Processed := mkProcessed {
  outCharacter : JS.value;
  addToOutput : bool;
  shiftInput : bool
}.

Definition processNumber (inCharacter : JS.value) : Processed :=
  {| outCharacter := inCharacter;
     addToOutput := isNumber inCharacter;
     shiftInput := true |}.

Definition processSpace (inCharacter : JS.value) : Processed :=
  {| outCharacter := Some " ";
     addToOutput := true;
     shiftInput := negb (isNumber inCharacter) |}.

(** The variables of the walk. *)
Record Walk := mkWalk {
  outputNumber : JS.array;
  currentStart : Z;
  currentEnd : Z;
  i : nat;
  j : nat
}.

Section Loop.

Variables inputNumber pattern : string.

Definition loop_cond (w : Walk) : bool :=
  (i w <? String.length inputNumber)%nat && (j w <? String.length pattern)%nat.

Definition loop_body (w : Walk) : Walk :=
  let inCharacter := JS.index inputNumber (i w) in
  let currentPattern := JS.index pattern (j w) in
  let p := if JS.strict_eq currentPattern "#"
           then processNumber inCharacter
           else processSpace inCharacter in
  let w1 :=
    if addToOutput p
    then {| outputNumber := JS.array_set (outputNumber w) (j w) (outCharacter p);
            currentStart := currentStart w;
            currentEnd := currentEnd w;
            i := i w;
            j := S (j w) |}
    else w in
  if shiftInput p
  then {| outputNumber := outputNumber w1;
          currentStart := currentStart w1;
          currentEnd := currentEnd w1;
          i := S (i w1);
          j := j w1 |}
  else
    let w2 :=
      if (Z.of_nat (i w1) <? currentStart w1)%Z
      then {| outputNumber := outputNumber w1;
              currentStart := (currentStart w1 + 1)%Z;
              currentEnd := currentEnd w1;
              i := i w1;
              j := j w1 |}
      else w1 in
    if (Z.of_nat (i w2) <? currentEnd w2)%Z
    then {| outputNumber := outputNumber w2;
            currentStart := currentStart w2;
            currentEnd := (currentEnd w2 + 1)%Z;
            i := i w2;
            j := j w2 |}
    else w2.

(** The [while] loop, unrolled at most [fuel] times. *)
Fixpoint while (fuel : nat) (w : Walk) : Walk :=
  match fuel with
  | O => w
  | S fuel' => if loop_cond w then while fuel' (loop_body w) else w
  end.

(** Every turn advances [i] or [j], so this many turns are enough
    ([while_enough_fuel] below). *)
Definition turns (w : Walk) : nat :=
  (String.length inputNumber - i w) + (String.length pattern - j w).

End Loop.

(** The defaults of the parameter list: [selectionStart] is the length of
    the coerced value when a value is given and [0] otherwise, [selectionEnd]
    is [selectionStart]. *)
Definition defaultStart (args : FormatArgs) : Z :=
  match arg_selectionStart args with
  | Some s => s
  | None =>
      match arg_value args with
      | Some v => Z.of_nat (String.length (JS.to_string (Some v)))
      | None => 0%Z
      end
  end.

Definition defaultEnd (args : FormatArgs) : Z :=
  match arg_selectionEnd args with
  | Some e => e
  | None => defaultStart args
  end.

Definition formatNumber (args : FormatArgs) : Selection :=
  let selectionStart := defaultStart args in
  let selectionEnd := defaultEnd args in
  let inputNumber := JS.to_string (arg_value args) in
  let pattern := getPatternFromNumber inputNumber in
  let w0 := {| outputNumber := [];
               currentStart := selectionStart;
               currentEnd := selectionEnd;
               i := 0;
               j := 0 |} in
  let w := while inputNumber pattern (turns inputNumber pattern w0) w0 in
  {| value := JS.join (outputNumber w);
     selectionStart := currentStart w;
     selectionEnd := currentEnd w |}.

(** [formatNumber({value})] *)
Definition formatValue (v : string) : Selection :=
  formatNumber (mkArgs (Some v) None None).

(** [formatNumber({value, selectionStart, selectionEnd})] *)
Definition formatAt (v : string) (s e : Z) : Selection :=
  formatNumber (mkArgs (Some v) (Some s) (Some e)).

(** ** Edit guard: the change handler of the component *)

(** The snapshot [getReversionData] stores on key-down: the value and cursor
    range before the edit (the three properties [revertState] reads), and
    the two flags. *)
Record ReversionData := mkReversion {
  reverted : Selection;
  isReplacing : bool;
  isAddingSpace : bool
}.

(** The change event: its target's value and cursor range, and whether
    [preventDefault] was called. *)
Record ChangeEvent := mkEvent {
  target : Selection;
  defaultPrevented : bool
}.

(** The component: its [inputState], the [reversionData] reference ([None]
    for [null]), and the values [onChange] was called with, oldest first. *)
Record CardInput := mkCardInput {
  inputState : Selection;
  reversionData : option ReversionData;
  notified : list string
}.

Definition setInputState (c : CardInput) (s : Selection) : CardInput :=
  {| inputState := s;
     reversionData := reversionData c;
     notified := notified c |}.

(** The key-down event: its target's value and cursor range, and the key. *)
Record KeyEvent := mkKeyEvent {
  key_target : Selection;
  key : string
}.

Definition getReversionData (c : CardInput) (e : KeyEvent) : CardInput :=
  let t := key_target e in
  {| inputState := inputState c;
     reversionData :=
       Some {| reverted := {| value := value t;
                              selectionStart := selectionStart t;
                              selectionEnd := selectionEnd t |};
               isReplacing :=
                 JS.test_digit
                   (JS.substring (value t) (selectionStart t) (selectionEnd t));
               isAddingSpace := String.eqb (key e) " " |};
     notified := notified c |}.

Definition revertState (c : CardInput) (e : ChangeEvent) (original : Selection)
  : CardInput * ChangeEvent :=
  (setInputState c {| value := value original;
                      selectionStart := selectionStart original;
                      selectionEnd := selectionEnd original |},
   {| target := target e; defaultPrevented := true |}).

(** [None] is the [TypeError] of reading the snapshot when the reference is
    still [null]. *)
Definition manageChange (c : CardInput) (e : ChangeEvent)
  : option (CardInput * ChangeEvent) :=
  let input := target e in
  let value0 := value input in
  match reversionData c with
  | None => None
  | Some originalInputData =>
      if JS.test_not_digit_or_space value0
      then Some (revertState c e (reverted originalInputData))
      else
        let cardPattern := getPatternFromNumber value0 in
        if (String.length (value (reverted originalInputData))
              =? String.length cardPattern)
           && (String.length cardPattern <=? String.length value0)
           && negb (isReplacing originalInputData)
        then Some (revertState c e (reverted originalInputData))
        else
          if isAddingSpace originalInputData
             && negb (JS.strict_eq
                        (JS.indexZ cardPattern
                           (selectionStart (reverted originalInputData)))
                        " ")
          then Some (revertState c e (reverted originalInputData))
          else
            let formattedData :=
              formatNumber (mkArgs (Some value0)
                                   (Some (selectionStart input))
                                   (Some (selectionEnd input))) in
            let c1 := setInputState c formattedData in
            if negb (String.eqb (value (inputState c)) (value formattedData))
            then Some ({| inputState := inputState c1;
                          reversionData := reversionData c1;
                          notified := notified c1 ++ [value formattedData] |},
                       {| target := {| value := value formattedData;
                                       selectionStart := selectionStart input;
                                       selectionEnd := selectionEnd input |};
                          defaultPrevented := defaultPrevented e |})
            else Some (c1, e)
  end.

(** ** Vocabulary of the specification *)

(** The digit characters of a string, in order. *)
Definition digits (s : string) : list ascii :=
  filter is_digit (list_ascii_of_string s).

Definition is_slot (c : ascii) : bool := Ascii.eqb c "#".

(** The number of digit placeholders of a pattern. *)
Definition slots (pat : string) : nat :=
  List.length (filter is_slot (list_ascii_of_string pat)).

(** What a pattern position admits: a digit under a placeholder, the space
    under anything else. *)
Definition slot_ok (pc c : ascii) : Prop :=
  if is_slot pc then is_digit c = true else c = " "%char.

(** * Proofs *)

(** ** Strings as lists of characters *)

Lemma get_nth_error (s : string) (n : nat) :
  String.get n s = nth_error (list_ascii_of_string s) n.
Proof.
  revert n; induction s as [|c s IH]; intros [|n]; simpl; auto.
Qed.

Lemma length_list_ascii (s : string) :
  String.length s = List.length (list_ascii_of_string s).
Proof. induction s; simpl; auto. Qed.

Definition char (c : ascii) : JS.value := Some (String c EmptyString).

Lemma join_chars (o : list ascii) :
  JS.join (map char o) = string_of_list_ascii o.
Proof. induction o; simpl; congruence. Qed.

Lemma array_set_at_length (a : JS.array) (x : JS.value) :
  JS.array_set a (List.length a) x = a ++ [x].
Proof.
  unfold JS.array_set.
  rewrite Nat.ltb_irrefl, Nat.sub_diag. reflexivity.
Qed.

Lemma index_char (s : string) (n : nat) (c : ascii) :
  nth_error (list_ascii_of_string s) n = Some c -> JS.index s n = char c.
Proof. unfold JS.index; rewrite get_nth_error; intros ->; reflexivity. Qed.

Lemma strict_eq_slot (pc : ascii) :
  JS.strict_eq (char pc) "#" = is_slot pc.
Proof.
  unfold is_slot; simpl.
  destruct (Ascii.eqb pc "#"); reflexivity.
Qed.

(** On a single character [isNumber] is the digit test. *)
Lemma isNumber_char (c : ascii) : isNumber (char c) = is_digit c.
Proof.
  destruct c as [[] [] [] [] [] [] [] []]; vm_compute; reflexivity.
Qed.

Lemma space_not_digit : is_digit " " = false.
Proof. reflexivity. Qed.

(** ** One turn of the loop *)

Section Turn.

Variables inputNumber pattern : string.

Let l := list_ascii_of_string inputNumber.
Let p := list_ascii_of_string pattern.

(** The offset [c] after a separator was inserted before input index [n]. *)
Definition shifted (n : nat) (c : Z) : Z :=
  if (Z.of_nat n <? c)%Z then (c + 1)%Z else c.

(** The four turns the loop body can take, by the pattern character and
    the input character it meets. *)
Inductive turn (w : Walk) : Walk -> Prop :=
| turn_keep c :
    nth_error l (i w) = Some c -> nth_error p (j w) = Some "#"%char ->
    is_digit c = true ->
    turn w {| outputNumber := JS.array_set (outputNumber w) (j w) (char c);
              currentStart := currentStart w; currentEnd := currentEnd w;
              i := S (i w); j := S (j w) |}
| turn_drop c :
    nth_error l (i w) = Some c -> nth_error p (j w) = Some "#"%char ->
    is_digit c = false ->
    turn w {| outputNumber := outputNumber w;
              currentStart := currentStart w; currentEnd := currentEnd w;
              i := S (i w); j := j w |}
| turn_over c pc :
    nth_error l (i w) = Some c -> nth_error p (j w) = Some pc ->
    is_slot pc = false -> is_digit c = false ->
    turn w {| outputNumber := JS.array_set (outputNumber w) (j w) (char " ");
              currentStart := currentStart w; currentEnd := currentEnd w;
              i := S (i w); j := S (j w) |}
| turn_insert c pc :
    nth_error l (i w) = Some c -> nth_error p (j w) = Some pc ->
    is_slot pc = false -> is_digit c = true ->
    turn w {| outputNumber := JS.array_set (outputNumber w) (j w) (char " ");
              currentStart := shifted (i w) (currentStart w);
              currentEnd := shifted (i w) (currentEnd w);
              i := i w; j := S (j w) |}.

Lemma loop_cond_true (w : Walk) :
  loop_cond inputNumber pattern w = true ->
  i w < List.length l /\ j w < List.length p.
Proof.
  unfold loop_cond; rewrite andb_true_iff, !Nat.ltb_lt, !length_list_ascii.
  auto.
Qed.

Lemma loop_cond_false (w : Walk) :
  loop_cond inputNumber pattern w = false ->
  List.length l <= i w \/ List.length p <= j w.
Proof.
  unfold loop_cond; rewrite andb_false_iff, !Nat.ltb_ge, !length_list_ascii.
  auto.
Qed.

Lemma is_slot_true (pc : ascii) : is_slot pc = true -> pc = "#"%char.
Proof. apply Ascii.eqb_eq. Qed.

(** While the loop condition holds, the body takes one of the four turns. *)
Lemma loop_body_turn (w : Walk) :
  loop_cond inputNumber pattern w = true ->
  turn w (loop_body inputNumber pattern w).
Proof.
  intros Hc. apply loop_cond_true in Hc as [Hi Hj].
  destruct (nth_error l (i w)) as [c|] eqn:Ec;
    [|apply nth_error_None in Ec; lia].
  destruct (nth_error p (j w)) as [pc|] eqn:Ep;
    [|apply nth_error_None in Ep; lia].
  unfold loop_body.
  rewrite (index_char _ _ _ Ec), (index_char _ _ _ Ep), strict_eq_slot.
  destruct (is_slot pc) eqn:Es.
  - apply is_slot_true in Es; subst pc.
    unfold processNumber; cbn [addToOutput shiftInput outCharacter].
    rewrite isNumber_char.
    destruct (is_digit c) eqn:Ed; cbn [outputNumber currentStart currentEnd i j].
    + now apply turn_keep.
    + destruct w; now apply turn_drop with c.
  - unfold processSpace; cbn [addToOutput shiftInput outCharacter].
    rewrite isNumber_char.
    destruct (is_digit c) eqn:Ed; cbn [negb outputNumber currentStart currentEnd i j].
    + replace (if (Z.of_nat (i w) <? currentStart w)%Z then _ else _)
        with {| outputNumber := JS.array_set (outputNumber w) (j w) (Some " ");
                currentStart := shifted (i w) (currentStart w);
                currentEnd := currentEnd w; i := i w; j := S (j w) |}
        by (unfold shifted; destruct (Z.of_nat (i w) <? currentStart w)%Z; reflexivity).
      cbn [outputNumber currentStart currentEnd i j].
      replace (if (Z.of_nat (i w) <? currentEnd w)%Z then _ else _)
        with {| outputNumber := JS.array_set (outputNumber w) (j w) (Some " ");
                currentStart := shifted (i w) (currentStart w);
                currentEnd := shifted (i w) (currentEnd w);
                i := i w; j := S (j w) |}
        by (unfold shifted; destruct (Z.of_nat (i w) <? currentEnd w)%Z; reflexivity).
      now apply turn_insert with c pc.
    + now apply turn_over with c pc.
Qed.

(** *** The loop ends *)

Lemma turn_decreases (w w' : Walk) :
  loop_cond inputNumber pattern w = true -> turn w w' ->
  turns inputNumber pattern w' < turns inputNumber pattern w.
Proof.
  intros Hc Ht. apply loop_cond_true in Hc as [Hi Hj].
  unfold turns; rewrite !length_list_ascii; fold l p.
  destruct Ht; cbn [i j]; lia.
Qed.

Lemma while_enough_fuel (fuel : nat) (w : Walk) :
  turns inputNumber pattern w <= fuel ->
  loop_cond inputNumber pattern (while inputNumber pattern fuel w) = false.
Proof.
  revert w; induction fuel as [|fuel IH]; intros w Hf; simpl.
  - unfold turns in Hf. unfold loop_cond.
    apply andb_false_iff; rewrite !Nat.ltb_ge. lia.
  - destruct (loop_cond inputNumber pattern w) eqn:Hc; [|exact Hc].
    apply IH.
    pose proof (turn_decreases _ _ Hc (loop_body_turn _ Hc)). lia.
Qed.

(** More fuel than needed changes nothing. *)
Lemma while_more_fuel (fuel : nat) (w : Walk) :
  turns inputNumber pattern w <= fuel ->
  while inputNumber pattern fuel w =
  while inputNumber pattern (turns inputNumber pattern w) w.
Proof.
  remember (turns inputNumber pattern w) as n eqn:En.
  revert fuel w En.
  induction n as [n IH] using lt_wf_ind; intros fuel w En Hf.
  destruct (loop_cond inputNumber pattern w) eqn:Hc.
  - pose proof (turn_decreases _ _ Hc (loop_body_turn _ Hc)) as Hd.
    destruct fuel as [|fuel]; [lia|]. destruct n as [|n]; [lia|].
    simpl; rewrite Hc.
    rewrite (IH (turns inputNumber pattern (loop_body inputNumber pattern w)))
      by (try reflexivity; lia).
    symmetry.
    apply (IH (turns inputNumber pattern (loop_body inputNumber pattern w)));
      try reflexivity; lia.
  - destruct fuel, n; simpl; rewrite ?Hc; reflexivity.
Qed.

(** A property kept by every turn holds when the loop stops. *)
Lemma while_invariant (P : Walk -> Prop) :
  (forall w w', P w -> turn w w' -> P w') ->
  forall fuel w, P w -> P (while inputNumber pattern fuel w).
Proof.
  intros Hstep fuel; induction fuel as [|fuel IH]; intros w Hw; simpl; auto.
  destruct (loop_cond inputNumber pattern w) eqn:Hc; auto.
  apply IH, (Hstep w); auto using loop_body_turn.
Qed.

End Turn.

(** ** Lists *)

Lemma firstn_snoc {A : Type} (xs : list A) (n : nat) (x : A) :
  nth_error xs n = Some x -> firstn (S n) xs = firstn n xs ++ [x].
Proof.
  revert n; induction xs as [|y xs IH]; intros [|n] H; simpl in *;
    try discriminate.
  - congruence.
  - f_equal. now apply IH.
Qed.

Lemma filter_snoc {A : Type} (f : A -> bool) (xs : list A) (x : A) :
  filter f (xs ++ [x]) = if f x then filter f xs ++ [x] else filter f xs.
Proof.
  rewrite filter_app; simpl.
  destruct (f x); auto using app_nil_r.
Qed.

Lemma filter_firstn_prefix {A : Type} (f : A -> bool) (xs : list A) (n : nat) :
  filter f xs = filter f (firstn n xs) ++ filter f (skipn n xs).
Proof. now rewrite <- filter_app, firstn_skipn. Qed.

Lemma Forall2_snoc {A B : Type} (R : A -> B -> Prop) xs ys x y :
  Forall2 R xs ys -> R x y -> Forall2 R (xs ++ [x]) (ys ++ [y]).
Proof. intros H Hxy; apply Forall2_app; auto. Qed.

Lemma Forall2_nth {A B : Type} (R : A -> B -> Prop) xs ys n y :
  Forall2 R xs ys -> nth_error ys n = Some y ->
  exists x, nth_error xs n = Some x /\ R x y.
Proof.
  intros H; revert n; induction H as [|x0 y0 xs ys Hxy H IH]; intros [|n] Hn;
    simpl in *; try discriminate.
  - injection Hn as ->. eauto.
  - eauto.
Qed.

(** In a conforming output the digits are the characters under the
    placeholders. *)
Lemma conforming_digits (ps o : list ascii) :
  Forall2 slot_ok ps o ->
  List.length (filter is_digit o) = List.length (filter is_slot ps).
Proof.
  induction 1 as [|pc c ps o Hok _ IH]; simpl; auto.
  unfold slot_ok in Hok.
  destruct (is_slot pc).
  - rewrite Hok; simpl; auto.
  - subst c; rewrite space_not_digit; auto.
Qed.

(** ** The invariant of the walk *)

(** The characters written so far. *)
Definition out_chars (w : Walk) : list ascii :=
  list_ascii_of_string (JS.join (outputNumber w)).

Lemma out_chars_of (w : Walk) (o : list ascii) :
  outputNumber w = map char o -> out_chars w = o.
Proof.
  unfold out_chars; intros ->.
  now rewrite join_chars, list_ascii_of_string_of_list_ascii.
Qed.

Section Invariant.

Variables inputNumber pattern : string.
Variables cs0 ce0 : Z.

Let l := list_ascii_of_string inputNumber.
Let p := list_ascii_of_string pattern.

Record walk_inv (w : Walk) : Prop := {
  inv_shape : outputNumber w = map char (out_chars w);
  inv_length : List.length (out_chars w) = j w;
  inv_j : j w <= List.length p;
  inv_i : i w <= List.length l;
  inv_conforms : Forall2 slot_ok (firstn (j w) p) (out_chars w);
  inv_digits :
    filter is_digit (out_chars w) = filter is_digit (firstn (i w) l);
  inv_start : (cs0 <= currentStart w)%Z;
  inv_end : (ce0 <= currentEnd w)%Z;
  inv_end_spaces :
    (currentEnd w <= ce0 + Z.of_nat (List.length (out_chars w))
                     - Z.of_nat (List.length (filter is_digit (out_chars w))))%Z;
  inv_ordered : (cs0 <= ce0)%Z -> (currentStart w <= currentEnd w)%Z
}.

Lemma walk_inv_init :
  walk_inv {| outputNumber := []; currentStart := cs0; currentEnd := ce0;
              i := 0; j := 0 |}.
Proof.
  split; cbn; try lia; auto.
Qed.

(** Writing at index [j] appends, since [j] is the length of the output. *)
Lemma write_appends (w w' : Walk) (c : ascii) :
  walk_inv w ->
  outputNumber w' = JS.array_set (outputNumber w) (j w) (char c) ->
  outputNumber w' = map char (out_chars w ++ [c]) /\
  out_chars w' = out_chars w ++ [c].
Proof.
  intros Hw Ho.
  assert (outputNumber w' = map char (out_chars w ++ [c])) as H.
  { rewrite Ho, map_app; simpl.
    rewrite <- (inv_shape _ Hw), <- (inv_length _ Hw).
    replace (List.length (out_chars w)) with (List.length (outputNumber w))
      by (rewrite (inv_shape _ Hw) at 1; apply length_map).
    apply array_set_at_length. }
  split; [exact H | now apply out_chars_of].
Qed.

Lemma shifted_bounds (n : nat) (c : Z) : (c <= shifted n c <= c + 1)%Z.
Proof. unfold shifted; destruct (Z.of_nat n <? c)%Z; lia. Qed.

Lemma shifted_monotone (n : nat) (c d : Z) :
  (c <= d)%Z -> (shifted n c <= shifted n d)%Z.
Proof.
  unfold shifted; intros H.
  destruct (Z.ltb_spec (Z.of_nat n) c), (Z.ltb_spec (Z.of_nat n) d); lia.
Qed.

Lemma walk_inv_turn (w w' : Walk) :
  walk_inv w -> turn inputNumber pattern w w' -> walk_inv w'.
Proof.
  intros Hw Ht.
  pose proof (inv_length _ Hw) as Hlen.
  destruct Ht as [c Hc Hp Hd | c Hc Hp Hd | c pc Hc Hp Hs Hd | c pc Hc Hp Hs Hd];
    fold l in Hc; fold p in Hp;
    assert (i w < List.length l) by (apply nth_error_Some; congruence);
    assert (j w < List.length p) by (apply nth_error_Some; congruence).
  - (* a digit under a placeholder *)
    match goal with |- walk_inv ?x =>
      destruct (write_appends w x c Hw eq_refl) as [Hs Ho] end.
    split; cbn [outputNumber currentStart currentEnd i j];
      rewrite ?Ho, ?length_app, ?filter_snoc, ?Hd, ?length_app; cbn [List.length];
      try (destruct Hw; lia); auto.
    + rewrite (firstn_snoc _ _ _ Hp).
      apply Forall2_snoc; [apply Hw|]. exact Hd.
    + rewrite (firstn_snoc _ _ _ Hc), filter_snoc, Hd.
      f_equal; apply Hw.
  - (* a dropped character *)
    split; cbn [outputNumber currentStart currentEnd i j];
      unfold out_chars in *; cbn [outputNumber];
      try (destruct Hw; assumption); try lia.
    rewrite (firstn_snoc _ _ _ Hc), filter_snoc, Hd. apply Hw.
  - (* a separator over a character that is not a digit *)
    match goal with |- walk_inv ?x =>
      destruct (write_appends w x " "%char Hw eq_refl) as [Hsh Ho] end.
    split; cbn [outputNumber currentStart currentEnd i j];
      rewrite ?Ho, ?length_app, ?filter_snoc, ?space_not_digit; cbn [List.length];
      try (destruct Hw; lia); auto.
    + rewrite (firstn_snoc _ _ _ Hp).
      apply Forall2_snoc; [apply Hw|]. unfold slot_ok; now rewrite Hs.
    + rewrite (firstn_snoc _ _ _ Hc), filter_snoc, Hd. apply Hw.
  - (* a separator inserted before a digit *)
    match goal with |- walk_inv ?x =>
      destruct (write_appends w x " "%char Hw eq_refl) as [Hsh Ho] end.
    pose proof (shifted_bounds (i w) (currentStart w)).
    pose proof (shifted_bounds (i w) (currentEnd w)).
    split; cbn [outputNumber currentStart currentEnd i j];
      rewrite ?Ho, ?length_app, ?filter_snoc, ?space_not_digit; cbn [List.length];
      try (destruct Hw; lia); auto.
    + rewrite (firstn_snoc _ _ _ Hp).
      apply Forall2_snoc; [apply Hw|]. unfold slot_ok; now rewrite Hs.
    + apply Hw.
    + intros Hle. apply shifted_monotone. now apply Hw.
Qed.

(** The state in which the loop of [formatNumber] stops. *)
Definition final : Walk :=
  let w0 := {| outputNumber := []; currentStart := cs0; currentEnd := ce0;
               i := 0; j := 0 |} in
  while inputNumber pattern (turns inputNumber pattern w0) w0.

Lemma final_inv : walk_inv final.
Proof.
  unfold final. apply while_invariant; [|apply walk_inv_init].
  intros w w' Hw Ht; eapply walk_inv_turn; eauto.
Qed.

Lemma final_stopped : loop_cond inputNumber pattern final = false.
Proof. unfold final. apply while_enough_fuel; auto. Qed.

End Invariant.

(** ** The patterns *)

Definition pattern16 : string := "#### #### #### ####".
Definition pattern19 : string := "#### #### #### #### ###".
Definition pattern15 : string := "#### ###### #####".
Definition fallback : string := "###################".

Lemma eqb_key (k c : ascii) :
  String.eqb (String k EmptyString) (String c EmptyString) = Ascii.eqb c k.
Proof.
  destruct (Ascii.eqb_spec c k) as [->|Hne].
  - apply String.eqb_refl.
  - apply String.eqb_neq; congruence.
Qed.

Lemma getPatternFromNumber_cons (c : ascii) (rest : string) :
  getPatternFromNumber (String c rest) =
  if Ascii.eqb c "2" || Ascii.eqb c "5" || Ascii.eqb c "6" then pattern16
  else if Ascii.eqb c "4" then pattern19
  else if Ascii.eqb c "3" then pattern15
  else fallback.
Proof.
  unfold getPatternFromNumber, JS.index; cbn [String.get option_map JS.or_else].
  unfold patterns; cbn [JS.prop]. rewrite !eqb_key.
  destruct (Ascii.eqb_spec c "0"); [subst; reflexivity|].
  destruct (Ascii.eqb_spec c "2"); [subst; reflexivity|].
  destruct (Ascii.eqb_spec c "3"); [subst; reflexivity|].
  destruct (Ascii.eqb_spec c "4"); [subst; reflexivity|].
  destruct (Ascii.eqb_spec c "5"); [subst; reflexivity|].
  destruct (Ascii.eqb_spec c "6"); [subst; reflexivity|].
  reflexivity.
Qed.

Lemma getPatternFromNumber_cases (number : string) :
  getPatternFromNumber number = pattern16 \/
  getPatternFromNumber number = pattern19 \/
  getPatternFromNumber number = pattern15 \/
  getPatternFromNumber number = fallback.
Proof.
  destruct number as [|c rest]; [auto|].
  rewrite getPatternFromNumber_cons.
  destruct (_ || _); auto.
  destruct (Ascii.eqb c "4"); auto.
  destruct (Ascii.eqb c "3"); auto.
Qed.

(** Only the first character matters. *)
Lemma getPatternFromNumber_first (c : ascii) (s t : string) :
  getPatternFromNumber (String c s) = getPatternFromNumber (String c t).
Proof. now rewrite !getPatternFromNumber_cons. Qed.

(** What all four patterns share: placeholders and spaces only, a
    placeholder first, no two spaces in a row. *)
Fixpoint well_spaced (ps : list ascii) : bool :=
  match ps with
  | a :: (b :: _) as rest =>
      negb (Ascii.eqb a " " && Ascii.eqb b " ") && well_spaced rest
  | _ => true
  end.

Definition good_pattern (pat : string) : bool :=
  let ps := list_ascii_of_string pat in
  forallb (fun c => is_slot c || Ascii.eqb c " ") ps
  && match ps with c :: _ => is_slot c | [] => false end
  && well_spaced ps.

Lemma getPatternFromNumber_good (number : string) :
  good_pattern (getPatternFromNumber number) = true.
Proof.
  destruct (getPatternFromNumber_cases number) as [H | [H | [H | H]]];
    rewrite H; reflexivity.
Qed.

Lemma good_pattern_chars (pat : string) (k : nat) (pc : ascii) :
  good_pattern pat = true ->
  nth_error (list_ascii_of_string pat) k = Some pc ->
  pc = "#"%char \/ pc = " "%char.
Proof.
  unfold good_pattern; rewrite !andb_true_iff, forallb_forall.
  intros [[H _] _] Hk. apply nth_error_In in Hk.
  specialize (H _ Hk). apply orb_true_iff in H as [H | H].
  - left; now apply Ascii.eqb_eq.
  - right; now apply Ascii.eqb_eq.
Qed.

Lemma good_pattern_head (pat : string) :
  good_pattern pat = true ->
  exists rest, list_ascii_of_string pat = "#"%char :: rest.
Proof.
  unfold good_pattern; rewrite !andb_true_iff.
  intros [[_ H] _].
  destruct (list_ascii_of_string pat) as [|c rest]; [discriminate|].
  apply Ascii.eqb_eq in H; subst; eauto.
Qed.

(** ** The result of [formatNumber], read off the final state *)

Lemma formatNumber_final (args : FormatArgs) :
  formatNumber args =
  let w := final (JS.to_string (arg_value args))
                 (getPatternFromNumber (JS.to_string (arg_value args)))
                 (defaultStart args) (defaultEnd args) in
  {| value := JS.join (outputNumber w);
     selectionStart := currentStart w;
     selectionEnd := currentEnd w |}.
Proof. reflexivity. Qed.

Lemma formatNumber_out_chars (args : FormatArgs) :
  list_ascii_of_string (value (formatNumber args)) =
  out_chars (final (JS.to_string (arg_value args))
                   (getPatternFromNumber (JS.to_string (arg_value args)))
                   (defaultStart args) (defaultEnd args)).
Proof. reflexivity. Qed.

Lemma firstn_exact_app {A : Type} (xs ys : list A) :
  firstn (List.length xs) (xs ++ ys) = xs.
Proof.
  rewrite firstn_app, Nat.sub_diag, firstn_all; simpl. apply app_nil_r.
Qed.

Lemma filter_firstn_length {A : Type} (f : A -> bool) (xs : list A) (n : nat) :
  List.length (filter f (firstn n xs)) <= List.length (filter f xs).
Proof.
  rewrite (filter_firstn_prefix f xs n), length_app. lia.
Qed.

(** The digits written by the walk: those of the input, as many as the
    pattern has placeholders. *)
Lemma final_digits (inputNumber pattern : string) (cs0 ce0 : Z) :
  filter is_digit (out_chars (final inputNumber pattern cs0 ce0)) =
  firstn (slots pattern) (digits inputNumber).
Proof.
  unfold digits, slots.
  set (w := final inputNumber pattern cs0 ce0).
  pose proof (final_inv inputNumber pattern cs0 ce0) as Hw; fold w in Hw.
  pose proof (final_stopped inputNumber pattern cs0 ce0) as Hstop; fold w in Hstop.
  pose proof (conforming_digits _ _ (inv_conforms _ _ _ _ _ Hw)) as Hcount.
  rewrite (inv_digits _ _ _ _ _ Hw) in *.
  apply loop_cond_false in Hstop as [Hi | Hj].
  - (* the input was read to its end *)
    rewrite (firstn_all2 (list_ascii_of_string inputNumber) Hi) in *.
    symmetry; apply firstn_all2.
    rewrite Hcount. apply filter_firstn_length.
  - (* the pattern was filled *)
    rewrite (firstn_all2 (list_ascii_of_string pattern) Hj) in Hcount.
    rewrite <- Hcount.
    rewrite (filter_firstn_prefix is_digit (list_ascii_of_string inputNumber) (i w)).
    symmetry; apply firstn_exact_app.
Qed.

(** ** Formatting a value that already conforms *)

Lemma conforming_nth (ps o : list ascii) (n k : nat) (c pc : ascii) :
  Forall2 slot_ok (firstn n ps) o ->
  nth_error o k = Some c -> nth_error ps k = Some pc -> slot_ok pc c.
Proof.
  intros Hall Hc Hpc.
  destruct (Forall2_nth _ _ _ _ _ Hall Hc) as (x & Hx & Hok).
  rewrite nth_error_firstn in Hx.
  destruct (k <? n); [|discriminate].
  congruence.
Qed.

Section Reformat.

Variables s pattern : string.

Let cs := list_ascii_of_string s.
Let p := list_ascii_of_string pattern.

Hypothesis conforming : Forall2 slot_ok (firstn (List.length cs) p) cs.

(** On a conforming value the two indices advance together and the output
    is the part of the input read so far. *)
Definition copying (w : Walk) : Prop :=
  i w = j w /\ i w <= List.length cs /\
  outputNumber w = map char (firstn (i w) cs).

Lemma copying_turn (w w' : Walk) :
  copying w -> turn s pattern w w' -> copying w'.
Proof.
  intros (Hij & Hi & Ho) Ht.
  assert (List.length (outputNumber w) = j w) as Hlen.
  { rewrite Ho, length_map, length_firstn. lia. }
  destruct Ht as [c Hc Hp Hd | c Hc Hp Hd | c pc Hc Hp Hs Hd | c pc Hc Hp Hs Hd];
    fold cs in Hc; fold p in Hp;
    assert (i w < List.length cs) by (apply nth_error_Some; congruence);
    rewrite <- Hij in Hp;
    pose proof (conforming_nth _ _ _ _ _ _ conforming Hc Hp) as Hok;
    unfold slot_ok in Hok.
  - repeat split; cbn [outputNumber i j]; try lia.
    rewrite <- Hlen, array_set_at_length, Ho, (firstn_snoc _ _ _ Hc), map_app.
    reflexivity.
  - simpl in Hok. congruence.
  - rewrite Hs in Hok; subst c.
    repeat split; cbn [outputNumber i j]; try lia.
    rewrite <- Hlen, array_set_at_length, Ho, (firstn_snoc _ _ _ Hc), map_app.
    reflexivity.
  - rewrite Hs in Hok; subst c. discriminate.
Qed.

Lemma final_of_conforming (cs0 ce0 : Z) :
  out_chars (final s pattern cs0 ce0) = cs.
Proof.
  assert (copying (final s pattern cs0 ce0)) as (Hij & Hi & Ho).
  { unfold final. apply while_invariant; [exact copying_turn|].
    repeat split; cbn; lia. }
  pose proof (Forall2_length conforming) as Hl.
  rewrite length_firstn in Hl.
  pose proof (final_stopped s pattern cs0 ce0) as Hstop.
  apply loop_cond_false in Hstop. fold cs p in Hstop.
  apply out_chars_of. rewrite Ho.
  rewrite firstn_all2 by lia. reflexivity.
Qed.

End Reformat.

(** When the input starts with a digit, so does the output. *)
Lemma final_head (d : ascii) (rest pattern : string) (cs0 ce0 : Z) :
  is_digit d = true -> good_pattern pattern = true ->
  exists o, out_chars (final (String d rest) pattern cs0 ce0) = d :: o.
Proof.
  intros Hd Hgood.
  pose proof (final_digits (String d rest) pattern cs0 ce0) as Hdig.
  pose proof (final_inv (String d rest) pattern cs0 ce0) as Hw.
  pose proof (inv_conforms _ _ _ _ _ Hw) as Hconf.
  rewrite <- (inv_length _ _ _ _ _ Hw) in Hconf.
  destruct (good_pattern_head _ Hgood) as (ps & Hps).
  unfold slots, digits in Hdig. rewrite Hps in Hdig, Hconf.
  cbn [list_ascii_of_string filter] in Hdig.
  rewrite Hd in Hdig. change (is_slot "#") with true in Hdig.
  cbn [List.length firstn] in Hdig.
  destruct (out_chars (final (String d rest) pattern cs0 ce0)) as [|c o];
    [discriminate|].
  cbn [List.length firstn] in Hconf.
  inversion Hconf as [|? ? ? ? Hok _]; subst.
  unfold slot_ok in Hok; simpl in Hok.
  cbn [filter] in Hdig. rewrite Hok in Hdig.
  injection Hdig as -> _. eauto.
Qed.

(** * The claims *)

(** ** Pattern selector *)

(** C1. [getPatternFromNumber] looks at the first character only: ['2'],
    ['5'] and ['6'] select the pattern of four groups of four, ['4'] the
    pattern with groups 4/4/4/4/3, ['3'] the pattern with groups 4/6/5; any
    other first character, the empty string and an absent argument (coerced
    to the text of [undefined]) select the fallback, which is nineteen
    placeholders and no separator. The function is total: it is defined on
    every string. *)
Theorem getPatternFromNumber_selects (c : ascii) (rest : string) :
  (c = "2"%char \/ c = "5"%char \/ c = "6"%char ->
     getPatternFromNumber (String c rest) = "#### #### #### ####") /\
  (c = "4"%char ->
     getPatternFromNumber (String c rest) = "#### #### #### #### ###") /\
  (c = "3"%char ->
     getPatternFromNumber (String c rest) = "#### ###### #####") /\
  (~ In c ["2"; "3"; "4"; "5"; "6"]%char ->
     getPatternFromNumber (String c rest) = fallback) /\
  getPatternFromNumber EmptyString = fallback /\
  getPatternFromNumber (JS.to_string None) = fallback /\
  list_ascii_of_string fallback = repeat "#"%char 19.
Proof.
  rewrite getPatternFromNumber_cons.
  repeat split; try reflexivity.
  - intros [-> | [-> | ->]]; reflexivity.
  - intros ->; reflexivity.
  - intros ->; reflexivity.
  - intros Hn.
    destruct (Ascii.eqb_spec c "2"); [subst; exfalso; apply Hn; simpl; auto|].
    destruct (Ascii.eqb_spec c "5"); [subst; exfalso; apply Hn; simpl; auto 6|].
    destruct (Ascii.eqb_spec c "6"); [subst; exfalso; apply Hn; simpl; auto 6|].
    destruct (Ascii.eqb_spec c "4"); [subst; exfalso; apply Hn; simpl; auto 6|].
    destruct (Ascii.eqb_spec c "3"); [subst; exfalso; apply Hn; simpl; auto 6|].
    reflexivity.
Qed.

(** ** Formatter *)

(** C2. Digit preservation: the digits of the formatted value are the digits
    of the input value, in order, cut to the number of placeholders of the
    pattern selected for the input. *)
Theorem formatNumber_preserves_digits (args : FormatArgs) :
  let inputNumber := JS.to_string (arg_value args) in
  digits (value (formatNumber args)) =
  firstn (slots (getPatternFromNumber inputNumber)) (digits inputNumber).
Proof.
  intros inputNumber. unfold digits at 1.
  rewrite formatNumber_out_chars. apply final_digits.
Qed.

(** The formatted value, position by position, against a pattern: a space
    where the pattern has a space, a digit elsewhere. *)
Definition conforms_to (pat out : string) : Prop :=
  forall k, k < String.length out ->
    exists c pc,
      String.get k out = Some c /\ String.get k pat = Some pc /\
      (c = " "%char <-> pc = " "%char) /\
      (c <> " "%char -> is_digit c = true).

Lemma conforms_of_Forall2 (pat out : string) :
  good_pattern pat = true ->
  Forall2 slot_ok
    (firstn (List.length (list_ascii_of_string out)) (list_ascii_of_string pat))
    (list_ascii_of_string out) ->
  conforms_to pat out.
Proof.
  intros Hgood Hall k Hk.
  rewrite length_list_ascii in Hk.
  destruct (nth_error (list_ascii_of_string out) k) as [c|] eqn:Ec;
    [|apply nth_error_None in Ec; lia].
  destruct (Forall2_nth _ _ _ _ _ Hall Ec) as (pc & Hpc & Hok).
  assert (nth_error (list_ascii_of_string pat) k = Some pc) as Hpat.
  { rewrite <- (firstn_skipn (List.length (list_ascii_of_string out))
                             (list_ascii_of_string pat)).
    rewrite nth_error_app1; [exact Hpc|].
    apply nth_error_Some; congruence. }
  exists c, pc. rewrite !get_nth_error.
  split; [exact Ec|]. split; [exact Hpat|]. split; [split|].
  - intros ->. unfold slot_ok in Hok.
    destruct (good_pattern_chars _ _ _ Hgood Hpat) as [-> | ->]; auto.
    simpl in Hok. discriminate.
  - intros ->. exact Hok.
  - intros Hne. unfold slot_ok in Hok.
    destruct (is_slot pc); [exact Hok | contradiction].
Qed.

(** C10. The formatted value conforms, position by position, to the pattern
    selected from the first character of the input value: below its length,
    it has a space exactly where that pattern has one, and a digit
    elsewhere. *)
Theorem formatNumber_conforms_to_input_pattern (args : FormatArgs) (k : nat) :
  let pat := getPatternFromNumber (JS.to_string (arg_value args)) in
  let out := value (formatNumber args) in
  k < String.length out ->
  exists c pc,
    String.get k out = Some c /\ String.get k pat = Some pc /\
    (c = " "%char <-> pc = " "%char) /\
    (c <> " "%char -> is_digit c = true).
Proof.
  intros pat out. revert k. change (conforms_to pat out).
  subst pat out.
  apply conforms_of_Forall2; [apply getPatternFromNumber_good|].
  rewrite formatNumber_out_chars.
  pose proof (final_inv (JS.to_string (arg_value args))
                        (getPatternFromNumber (JS.to_string (arg_value args)))
                        (defaultStart args) (defaultEnd args)) as Hw.
  rewrite (inv_length _ _ _ _ _ Hw). apply Hw.
Qed.

Lemma formatNumber_conforms_to_input_pattern_witness :
  exists c pc,
    String.get 4 (value (formatValue "41111")) = Some c /\
    String.get 4 (getPatternFromNumber "41111") = Some pc /\
    (c = " "%char <-> pc = " "%char) /\
    (c <> " "%char -> is_digit c = true).
Proof.
  apply (formatNumber_conforms_to_input_pattern (mkArgs (Some "41111") None None) 4).
  vm_compute. lia.
Defined.

(** C7. Cursor monotonicity: when the cursor range handed to [formatNumber]
    (after its defaults) has its start at or before its end, so has the
    range it returns. *)
Theorem formatNumber_keeps_cursor_order (args : FormatArgs) :
  (defaultStart args <= defaultEnd args)%Z ->
  (selectionStart (formatNumber args) <= selectionEnd (formatNumber args))%Z.
Proof.
  intros Hle. rewrite formatNumber_final; cbn [selectionStart selectionEnd].
  now apply (inv_ordered _ _ _ _ _ (final_inv _ _ _ _)).
Qed.

Lemma formatNumber_keeps_cursor_order_witness :
  (selectionStart (formatAt "411111111" 2 6)
   <= selectionEnd (formatAt "411111111" 2 6))%Z.
Proof.
  apply (formatNumber_keeps_cursor_order (mkArgs (Some "411111111") (Some 2%Z) (Some 6%Z))).
  cbv [defaultStart defaultEnd arg_selectionStart arg_selectionEnd]. lia.
Defined.

(** C8. The example of the specification: [formatNumber] on the value
    ["4111111111111111"] with no cursor range returns the value in groups
    of four with both cursor ends at 19 (they start at the length of the
    input, 16, and three spaces are inserted before them). *)
Theorem formatNumber_example_default_cursor :
  formatNumber (mkArgs (Some "4111111111111111") None None) =
  {| value := "4111 1111 1111 1111"; selectionStart := 19; selectionEnd := 19 |}
  /\ defaultStart (mkArgs (Some "4111111111111111") None None) = 16%Z
  /\ defaultEnd (mkArgs (Some "4111111111111111") None None) = 16%Z.
Proof. repeat split; vm_compute; reflexivity. Qed.

Lemma list_ascii_inj (a b : string) :
  list_ascii_of_string a = list_ascii_of_string b -> a = b.
Proof.
  intros H. rewrite <- (string_of_list_ascii_of_string a), H.
  apply string_of_list_ascii_of_string.
Qed.

(** C3, as the specification states it, fails twice. A value that starts
    with a space is formatted with the fallback pattern, and formatting the
    result again groups it by its first digit: the value changes. And where
    the walk dropped a character the returned cursor is past the place a
    second run, started at the end of the shorter value, returns. *)
Lemma reformatting_is_not_neutral :
  JS.test_not_digit_or_space " 41111" = false /\
  value (formatValue " 41111") = "41111" /\
  value (formatValue (value (formatValue " 41111"))) = "4111 1" /\
  formatValue (value (formatValue " 41111")) <> formatValue " 41111" /\
  JS.test_not_digit_or_space "4 1" = false /\
  formatValue "4 1" = {| value := "41"; selectionStart := 3; selectionEnd := 3 |} /\
  formatValue (value (formatValue "4 1")) =
    {| value := "41"; selectionStart := 2; selectionEnd := 2 |}.
Proof.
  repeat split; try (vm_compute; reflexivity).
  vm_compute. discriminate.
Qed.

(** C4 fails on the code: a value with a space before its first digit is
    formatted with the fallback pattern, so the result has a digit where the
    pattern of its own first digit has a separator. *)
Lemma formatNumber_leading_space :
  formatValue " 41111" = {| value := "41111"; selectionStart := 6; selectionEnd := 6 |}
  /\ getPatternFromNumber " 41111" = fallback
  /\ getPatternFromNumber "41111" = pattern19
  /\ ~ conforms_to (getPatternFromNumber (value (formatValue " 41111")))
                   (value (formatValue " 41111")).
Proof.
  repeat split; try (vm_compute; reflexivity).
  intros H. destruct (H 4) as (c & pc & Hc & Hpc & Hiff & _).
  - vm_compute. lia.
  - vm_compute in Hc, Hpc.
    injection Hc as <-. injection Hpc as <-.
    destruct Hiff as [_ Hiff]. specialize (Hiff eq_refl). discriminate.
Qed.

(** C5, as the specification states it, fails: the walk never moves a cursor
    back for a character it drops, so the returned range can end past the
    returned value. *)
Lemma cursor_past_the_value :
  (0 <= 3 <= 3)%Z /\ (3 <= Z.of_nat (String.length "4 1"))%Z /\
  formatAt "4 1" 3 3 = {| value := "41"; selectionStart := 3; selectionEnd := 3 |} /\
  ~ (selectionEnd (formatAt "4 1" 3 3)
     <= Z.of_nat (String.length (value (formatAt "4 1" 3 3))))%Z.
Proof.
  repeat split; try lia; try (vm_compute; reflexivity).
  - vm_compute. discriminate.
  - vm_compute. intros H; apply H; reflexivity.
Qed.

(** ** The cursor shift *)

(** The shift as the specification words it: a cursor moves when the
    insertion point is at or before it. *)
Definition shifted_at_or_before (n : nat) (c : Z) : Z :=
  if (Z.of_nat n <=? c)%Z then (c + 1)%Z else c.

(** The walk over ["41111"] with the caret at offset 4, after its first four
    turns: the four digits of the first group are written. *)
Definition walk_at_first_separator : Walk :=
  while "41111" (getPatternFromNumber "41111") 4
        {| outputNumber := []; currentStart := 4; currentEnd := 4;
           i := 0; j := 0 |}.

(** C6, as the specification states it, fails: a separator inserted exactly
    at a cursor offset leaves that offset where it is. *)
Lemma separator_at_the_cursor :
  i walk_at_first_separator = 4 /\
  j walk_at_first_separator = 4 /\
  currentStart walk_at_first_separator = 4%Z /\
  currentEnd walk_at_first_separator = 4%Z /\
  String.get 4 (getPatternFromNumber "41111") = Some " "%char /\
  String.get 4 "41111" = Some "1"%char /\
  j (loop_body "41111" (getPatternFromNumber "41111") walk_at_first_separator) = 5 /\
  i (loop_body "41111" (getPatternFromNumber "41111") walk_at_first_separator) = 4 /\
  currentStart (loop_body "41111" (getPatternFromNumber "41111") walk_at_first_separator)
    = 4%Z /\
  currentEnd (loop_body "41111" (getPatternFromNumber "41111") walk_at_first_separator)
    = 4%Z /\
  shifted_at_or_before (i walk_at_first_separator)
                       (currentStart walk_at_first_separator) = 5%Z /\
  formatAt "41111" 4 4 =
    {| value := "4111 1"; selectionStart := 4; selectionEnd := 4 |}.
Proof. repeat split; vm_compute; reflexivity. Qed.

(** C6, amended. In a turn of the walk that meets a separator of the pattern
    and a digit of the input, the separator is written, [i] stays, and each
    cursor offset grows by one exactly when [i] is strictly before it. Every
    other turn advances [i] and leaves both offsets as they are. *)
Theorem cursor_shift_rule (inputNumber pattern : string) (w : Walk) (c pc : ascii) :
  String.get (i w) inputNumber = Some c ->
  String.get (j w) pattern = Some pc ->
  let w' := loop_body inputNumber pattern w in
  (pc <> "#"%char -> is_digit c = true ->
     i w' = i w /\ j w' = S (j w) /\
     outputNumber w' = JS.array_set (outputNumber w) (j w) (Some " ") /\
     ((Z.of_nat (i w) < currentStart w)%Z ->
        currentStart w' = (currentStart w + 1)%Z) /\
     ((currentStart w <= Z.of_nat (i w))%Z -> currentStart w' = currentStart w) /\
     ((Z.of_nat (i w) < currentEnd w)%Z ->
        currentEnd w' = (currentEnd w + 1)%Z) /\
     ((currentEnd w <= Z.of_nat (i w))%Z -> currentEnd w' = currentEnd w)) /\
  (pc = "#"%char \/ is_digit c = false ->
     i w' = S (i w) /\
     currentStart w' = currentStart w /\ currentEnd w' = currentEnd w).
Proof.
  intros Hc Hp w'.
  rewrite get_nth_error in Hc, Hp.
  assert (turn inputNumber pattern w w') as Ht.
  { apply loop_body_turn. unfold loop_cond.
    rewrite !length_list_ascii, andb_true_iff, !Nat.ltb_lt.
    split; apply nth_error_Some; congruence. }
  clearbody w'.
  destruct Ht as [c' Hc' Hp' Hd | c' Hc' Hp' Hd
                  | c' pc' Hc' Hp' Hs Hd | c' pc' Hc' Hp' Hs Hd];
    assert (c' = c) by congruence; subst c';
    cbn [outputNumber currentStart currentEnd i j].
  - split; [intros Hne; congruence | auto].
  - split; [intros _ Hd'; congruence | auto].
  - split; [intros _ Hd'; congruence | auto].
  - assert (pc' = pc) by congruence; subst pc'.
    split.
    + intros _ _. unfold shifted.
      destruct (Z.ltb_spec (Z.of_nat (i w)) (currentStart w)),
               (Z.ltb_spec (Z.of_nat (i w)) (currentEnd w));
        repeat split; auto; lia.
    + intros [-> | Hd']; [discriminate | congruence].
Qed.

Lemma cursor_shift_rule_witness :
  j (loop_body "41111" (getPatternFromNumber "41111") walk_at_first_separator) = 5 /\
  currentStart (loop_body "41111" (getPatternFromNumber "41111") walk_at_first_separator)
    = currentStart walk_at_first_separator.
Proof.
  destruct (cursor_shift_rule "41111" (getPatternFromNumber "41111")
              walk_at_first_separator "1"%char " "%char eq_refl eq_refl)
    as [Hsep _].
  destruct Hsep as (_ & Hj & _ & _ & Hstay & _);
    [discriminate | reflexivity |].
  split; [exact Hj | apply Hstay; vm_compute; discriminate].
Defined.

(** ** Edit guard *)

(** C9. The full-field rule: when the new value holds digits and spaces
    only, the value before the edit was as long as the pattern selected from
    the new value, the new value is at least that long, and the snapshot is
    not a replacement, [manageChange] reverts: the state becomes the
    snapshot's value and cursor range, the default is prevented and the
    change observer is not called. *)
Theorem manageChange_full_field (c : CardInput) (e : ChangeEvent)
        (snapshot : ReversionData) :
  reversionData c = Some snapshot ->
  JS.test_not_digit_or_space (value (target e)) = false ->
  String.length (value (reverted snapshot))
    = String.length (getPatternFromNumber (value (target e))) ->
  String.length (getPatternFromNumber (value (target e)))
    <= String.length (value (target e)) ->
  isReplacing snapshot = false ->
  manageChange c e =
  Some ({| inputState := {| value := value (reverted snapshot);
                            selectionStart := selectionStart (reverted snapshot);
                            selectionEnd := selectionEnd (reverted snapshot) |};
           reversionData := reversionData c;
           notified := notified c |},
        {| target := target e; defaultPrevented := true |}).
Proof.
  intros Hsnap Hclean Hfull Hgrow Hins.
  unfold manageChange. rewrite Hsnap, Hclean, Hfull, Hins.
  rewrite Nat.eqb_refl. apply Nat.leb_le in Hgrow. rewrite Hgrow.
  cbn [andb negb]. unfold revertState, setInputState.
  rewrite Hsnap. reflexivity.
Qed.

Definition full_field : Selection :=
  {| value := "5111 1111 1111 1111"; selectionStart := 19; selectionEnd := 19 |}.

Lemma manageChange_full_field_witness :
  manageChange
    {| inputState := full_field;
       reversionData := Some {| reverted := full_field;
                                isReplacing := false;
                                isAddingSpace := false |};
       notified := [] |}
    {| target := {| value := "5111 1111 1111 11112";
                    selectionStart := 20; selectionEnd := 20 |};
       defaultPrevented := false |}
  = Some ({| inputState := full_field;
             reversionData := Some {| reverted := full_field;
                                      isReplacing := false;
                                      isAddingSpace := false |};
             notified := [] |},
          {| target := {| value := "5111 1111 1111 11112";
                          selectionStart := 20; selectionEnd := 20 |};
             defaultPrevented := true |}).
Proof.
  apply (manageChange_full_field
           {| inputState := full_field;
              reversionData := Some {| reverted := full_field;
                                       isReplacing := false;
                                       isAddingSpace := false |};
              notified := [] |}
           {| target := {| value := "5111 1111 1111 11112";
                           selectionStart := 20; selectionEnd := 20 |};
              defaultPrevented := false |}
           {| reverted := full_field; isReplacing := false;
              isAddingSpace := false |});
    try reflexivity.
  vm_compute. lia.
Defined.

(** * Further properties *)

(** The loop of [formatNumber] stops: the state it returns from fails the
    loop condition, and running the loop for more turns than the budget of
    [turns] changes nothing. *)
Theorem formatNumber_loop_ends (args : FormatArgs) (fuel : nat) :
  let inputNumber := JS.to_string (arg_value args) in
  let pattern := getPatternFromNumber inputNumber in
  let w0 := {| outputNumber := []; currentStart := defaultStart args;
               currentEnd := defaultEnd args; i := 0; j := 0 |} in
  loop_cond inputNumber pattern
            (while inputNumber pattern (turns inputNumber pattern w0) w0) = false /\
  (turns inputNumber pattern w0 <= fuel ->
   while inputNumber pattern fuel w0 =
   while inputNumber pattern (turns inputNumber pattern w0) w0).
Proof.
  intros inputNumber pattern w0. split.
  - apply while_enough_fuel. lia.
  - apply while_more_fuel.
Qed.

(** The formatted value is never longer than the pattern selected for the
    input, so never longer than 23 characters. *)
Theorem formatNumber_length_bound (args : FormatArgs) :
  String.length (value (formatNumber args))
    <= String.length (getPatternFromNumber (JS.to_string (arg_value args)))
  /\ String.length (value (formatNumber args)) <= 23.
Proof.
  pose proof (final_inv (JS.to_string (arg_value args))
                (getPatternFromNumber (JS.to_string (arg_value args)))
                (defaultStart args) (defaultEnd args)) as Hw.
  assert (String.length (value (formatNumber args))
          <= String.length (getPatternFromNumber (JS.to_string (arg_value args))))
    as Hle.
  { rewrite !length_list_ascii, formatNumber_out_chars.
    rewrite (inv_length _ _ _ _ _ Hw). apply Hw. }
  split; [exact Hle|].
  set (n := String.length (value (formatNumber args))) in *.
  destruct (getPatternFromNumber_cases (JS.to_string (arg_value args)))
    as [H | [H | [H | H]]]; rewrite H in Hle; simpl in Hle; lia.
Qed.

(** A value without a digit is formatted to the empty string. *)
Theorem formatNumber_without_digits (args : FormatArgs) :
  digits (JS.to_string (arg_value args)) = [] ->
  value (formatNumber args) = EmptyString.
Proof.
  intros Hnone.
  set (inputNumber := JS.to_string (arg_value args)) in *.
  set (pattern := getPatternFromNumber inputNumber).
  pose proof (final_inv inputNumber pattern (defaultStart args) (defaultEnd args)) as Hw.
  pose proof (final_digits inputNumber pattern (defaultStart args) (defaultEnd args))
    as Hdig.
  rewrite Hnone, firstn_nil in Hdig.
  pose proof (inv_conforms _ _ _ _ _ Hw) as Hconf.
  rewrite <- (inv_length _ _ _ _ _ Hw) in Hconf.
  destruct (good_pattern_head pattern (getPatternFromNumber_good _)) as (ps & Hps).
  rewrite Hps in Hconf.
  apply list_ascii_inj. rewrite formatNumber_out_chars.
  fold inputNumber pattern.
  destruct (out_chars (final inputNumber pattern (defaultStart args) (defaultEnd args)))
    as [|c o]; [reflexivity|].
  cbn [List.length firstn] in Hconf.
  inversion Hconf as [|? ? ? ? Hok _]; subst.
  unfold slot_ok in Hok; simpl in Hok.
  cbn [filter] in Hdig. rewrite Hok in Hdig. discriminate.
Qed.

Lemma formatNumber_without_digits_witness :
  value (formatNumber (mkArgs None None None)) = EmptyString.
Proof.
  apply (formatNumber_without_digits (mkArgs None None None)).
  reflexivity.
Defined.

(** The walk never moves a cursor offset back. *)
Theorem formatNumber_cursor_never_back (args : FormatArgs) :
  (defaultStart args <= selectionStart (formatNumber args))%Z /\
  (defaultEnd args <= selectionEnd (formatNumber args))%Z.
Proof.
  rewrite formatNumber_final; cbn [selectionStart selectionEnd].
  pose proof (final_inv (JS.to_string (arg_value args))
                (getPatternFromNumber (JS.to_string (arg_value args)))
                (defaultStart args) (defaultEnd args)) as Hw.
  split; apply Hw.
Qed.

(** The first rule of the edit guard: a new value with a character that is
    neither a digit nor a space is reverted to the snapshot. *)
Theorem manageChange_other_characters (c : CardInput) (e : ChangeEvent)
        (snapshot : ReversionData) :
  reversionData c = Some snapshot ->
  JS.test_not_digit_or_space (value (target e)) = true ->
  manageChange c e =
  Some ({| inputState := reverted snapshot;
           reversionData := reversionData c;
           notified := notified c |},
        {| target := target e; defaultPrevented := true |}).
Proof.
  intros Hsnap Hbad. unfold manageChange. rewrite Hsnap, Hbad.
  unfold revertState, setInputState. rewrite Hsnap.
  destruct (reverted snapshot); reflexivity.
Qed.

Definition nearly_full_field : Selection :=
  {| value := "4111 1111 1111 111"; selectionStart := 19; selectionEnd := 19 |}.

Lemma manageChange_other_characters_witness :
  manageChange
    {| inputState := nearly_full_field;
       reversionData := Some {| reverted := nearly_full_field;
                                isReplacing := false;
                                isAddingSpace := false |};
       notified := [] |}
    {| target := {| value := "4111 1111 1111 1111x";
                    selectionStart := 20; selectionEnd := 20 |};
       defaultPrevented := false |}
  = Some ({| inputState := nearly_full_field;
             reversionData := Some {| reverted := nearly_full_field;
                                      isReplacing := false;
                                      isAddingSpace := false |};
             notified := [] |},
          {| target := {| value := "4111 1111 1111 1111x";
                          selectionStart := 20; selectionEnd := 20 |};
             defaultPrevented := true |}).
Proof.
  apply (manageChange_other_characters
           {| inputState := nearly_full_field;
              reversionData := Some {| reverted := nearly_full_field;
                                       isReplacing := false;
                                       isAddingSpace := false |};
              notified := [] |}
           {| target := {| value := "4111 1111 1111 1111x";
                           selectionStart := 20; selectionEnd := 20 |};
              defaultPrevented := false |}
           {| reverted := nearly_full_field; isReplacing := false;
              isAddingSpace := false |});
    reflexivity.
Defined.

Ltac reverting snapshot :=
  eexists _, _; split; [reflexivity|]; left;
  cbn; destruct (reverted snapshot); auto.

(** With a snapshot in place [manageChange] always decides: it reverts to
    the snapshot without calling the observer, or it stores the formatted
    value and calls the observer once exactly when that value differs from
    the one displayed. *)
Theorem manageChange_decides (c : CardInput) (e : ChangeEvent)
        (snapshot : ReversionData) :
  reversionData c = Some snapshot ->
  exists c' e',
    manageChange c e = Some (c', e') /\
    ((inputState c' = reverted snapshot /\ defaultPrevented e' = true /\
      notified c' = notified c)
     \/
     (inputState c' =
        formatNumber (mkArgs (Some (value (target e)))
                             (Some (selectionStart (target e)))
                             (Some (selectionEnd (target e)))) /\
      defaultPrevented e' = defaultPrevented e /\
      notified c' =
        if String.eqb (value (inputState c)) (value (inputState c'))
        then notified c
        else notified c ++ [value (inputState c')])).
Proof.
  intros Hsnap. unfold manageChange. rewrite Hsnap.
  destruct (JS.test_not_digit_or_space _); [reverting snapshot|].
  destruct (_ && negb (isReplacing snapshot)); [reverting snapshot|].
  destruct (isAddingSpace snapshot && _); [reverting snapshot|].
  destruct (String.eqb _ _) eqn:E; cbn [negb];
    eexists _, _; (split; [reflexivity|]); right;
    cbn [inputState notified defaultPrevented setInputState]; rewrite E; auto.
Qed.

Lemma manageChange_decides_witness :
  exists c' e',
    manageChange
      {| inputState := nearly_full_field;
         reversionData := Some {| reverted := nearly_full_field;
                                  isReplacing := false;
                                  isAddingSpace := false |};
         notified := [] |}
      {| target := {| value := "4111 1111 1111 1111";
                      selectionStart := 19; selectionEnd := 19 |};
         defaultPrevented := false |} = Some (c', e') /\
    ((inputState c' = nearly_full_field /\ defaultPrevented e' = true /\
      notified c' = [])
     \/
     (inputState c' =
        formatNumber (mkArgs (Some "4111 1111 1111 1111")
                             (Some 19%Z) (Some 19%Z)) /\
      defaultPrevented e' = false /\
      notified c' =
        if String.eqb "4111 1111 1111 111" (value (inputState c'))
        then []
        else [] ++ [value (inputState c')])).
Proof.
  apply (manageChange_decides
           {| inputState := nearly_full_field;
              reversionData := Some {| reverted := nearly_full_field;
                                       isReplacing := false;
                                       isAddingSpace := false |};
              notified := [] |}
           {| target := {| value := "4111 1111 1111 1111";
                           selectionStart := 19; selectionEnd := 19 |};
              defaultPrevented := false |}
           {| reverted := nearly_full_field; isReplacing := false;
              isAddingSpace := false |}).
  reflexivity.
Defined.

Lemma well_spaced_nth (ps : list ascii) (k : nat) :
  well_spaced ps = true ->
  nth_error ps k = Some " "%char -> nth_error ps (S k) = Some " "%char -> False.
Proof.
  revert k; induction ps as [|a ps IH]; intros k Hw Hk HSk; [destruct k; discriminate|].
  destruct ps as [|b ps]; [destruct k; discriminate|].
  cbn [well_spaced] in Hw. apply andb_true_iff in Hw as [Hab Hw].
  destruct k as [|k].
  - cbn in Hk, HSk. injection Hk as ->. injection HSk as ->. discriminate.
  - apply (IH k); auto.
Qed.

Lemma get_Some_lt (s : string) (k : nat) (c : ascii) :
  String.get k s = Some c -> k < String.length s.
Proof.
  rewrite get_nth_error, length_list_ascii. intros H.
  apply nth_error_Some. congruence.
Qed.

(** The formatted value holds digits and spaces only, and never two spaces
    in a row. *)
Theorem formatNumber_digits_and_single_spaces
        (args : FormatArgs) (k : nat) (c : ascii) :
  String.get k (value (formatNumber args)) = Some c ->
  (is_digit c = true \/ c = " "%char) /\
  (c = " "%char ->
   String.get (S k) (value (formatNumber args)) <> Some " "%char).
Proof.
  intros Hk.
  set (pat := getPatternFromNumber (JS.to_string (arg_value args))).
  assert (conforms_to pat (value (formatNumber args))) as Hconf.
  { apply conforms_of_Forall2; [apply getPatternFromNumber_good|].
    rewrite formatNumber_out_chars.
    pose proof (final_inv (JS.to_string (arg_value args)) pat
                          (defaultStart args) (defaultEnd args)) as Hw.
    fold pat. rewrite (inv_length _ _ _ _ _ Hw). apply Hw. }
  destruct (Hconf k (get_Some_lt _ _ _ Hk)) as (c' & pc & Hc' & Hpc & Hiff & Hdig).
  assert (c' = c) by congruence; subst c'.
  split.
  - destruct (Ascii.eqb_spec c " "); auto.
  - intros -> Hnext.
    destruct (Hconf (S k) (get_Some_lt _ _ _ Hnext))
      as (c2 & pc2 & Hc2 & Hpc2 & Hiff2 & _).
    assert (c2 = " "%char) by congruence; subst c2.
    pose proof (getPatternFromNumber_good (JS.to_string (arg_value args))) as Hgood.
    unfold good_pattern in Hgood. apply andb_true_iff in Hgood as [_ Hsp].
    rewrite get_nth_error in Hpc, Hpc2.
    assert (pc = " "%char) by now apply Hiff.
    assert (pc2 = " "%char) by now apply Hiff2.
    subst pc pc2.
    exact (well_spaced_nth _ k Hsp Hpc Hpc2).
Qed.

Lemma formatNumber_digits_and_single_spaces_witness :
  (is_digit " " = true \/ " "%char = " "%char) /\
  (" "%char = " "%char ->
   String.get 5 (value (formatValue "4111 11")) <> Some " "%char).
Proof.
  apply (formatNumber_digits_and_single_spaces
           (mkArgs (Some "4111 11") None None) 4 " "%char).
  reflexivity.
Defined.

(** * More of the formatter *)

(** ** A caret stays a caret *)

Lemma final_caret (inputNumber pattern : string) (c0 : Z) :
  currentStart (final inputNumber pattern c0 c0)
  = currentEnd (final inputNumber pattern c0 c0).
Proof.
  unfold final.
  apply (while_invariant inputNumber pattern
           (fun w => currentStart w = currentEnd w)); [|reflexivity].
  intros w w' Hw Ht.
  destruct Ht; cbn [currentStart currentEnd]; congruence.
Qed.

(** A collapsed selection comes back collapsed: when the two cursor offsets
    [formatNumber] starts from are equal, as they are whenever no
    [selectionEnd] is given, so are the two it returns. *)
Theorem formatNumber_caret (args : FormatArgs) :
  defaultStart args = defaultEnd args ->
  selectionStart (formatNumber args) = selectionEnd (formatNumber args).
Proof.
  intros Heq. rewrite formatNumber_final.
  cbn [selectionStart selectionEnd]. rewrite <- Heq.
  apply final_caret.
Qed.

Lemma formatNumber_caret_witness :
  selectionStart (formatNumber (mkArgs (Some "411111") (Some 5%Z) None))
  = selectionEnd (formatNumber (mkArgs (Some "411111") (Some 5%Z) None)).
Proof.
  apply (formatNumber_caret (mkArgs (Some "411111") (Some 5%Z) None)).
  reflexivity.
Defined.

(** ** Values that already conform *)

Lemma conforms_to_Forall2 (pat s : string) :
  (forall k pc, nth_error (list_ascii_of_string pat) k = Some pc ->
                pc = "#"%char \/ pc = " "%char) ->
  conforms_to pat s ->
  Forall2 slot_ok
    (firstn (List.length (list_ascii_of_string s)) (list_ascii_of_string pat))
    (list_ascii_of_string s).
Proof.
  revert pat; induction s as [|c s IH]; intros pat Hchars Hconf.
  - constructor.
  - destruct (Hconf 0) as (c' & pc & Hc & Hpc & Hiff & Hdig); [simpl; lia|].
    destruct pat as [|pc' pat]; [discriminate|].
    cbn [String.get] in Hc, Hpc.
    injection Hc as <-. injection Hpc as ->.
    cbn [list_ascii_of_string List.length firstn]. constructor.
    + unfold slot_ok.
      destruct (Hchars 0 pc eq_refl) as [-> | ->]; cbn.
      * apply Hdig. intros ->. destruct Hiff as [Hiff _].
        specialize (Hiff eq_refl). discriminate.
      * now apply Hiff.
    + apply IH.
      * intros k pc0 Hk. apply (Hchars (S k)). exact Hk.
      * intros k Hk. destruct (Hconf (S k)) as (c1 & pc1 & H1); [simpl; lia|].
        exists c1, pc1. exact H1.
Qed.

(** On a conforming value no separator is ever inserted, so the cursor
    offsets are left alone. *)
Lemma final_of_conforming_cursor (s pattern : string) (a b : Z) :
  Forall2 slot_ok
    (firstn (List.length (list_ascii_of_string s)) (list_ascii_of_string pattern))
    (list_ascii_of_string s) ->
  currentStart (final s pattern a b) = a /\
  currentEnd (final s pattern a b) = b.
Proof.
  intros Hconf.
  assert (copying s (final s pattern a b) /\
          currentStart (final s pattern a b) = a /\
          currentEnd (final s pattern a b) = b) as (_ & H); [|exact H].
  unfold final.
  apply (while_invariant s pattern
           (fun w => copying s w /\ currentStart w = a /\ currentEnd w = b)).
  - intros w w' (Hcopy & Hs & He) Ht.
    split; [exact (copying_turn s pattern Hconf w w' Hcopy Ht)|].
    destruct Hcopy as (Hij & _ & _).
    destruct Ht as [c Hc Hp Hd | c Hc Hp Hd | c pc Hc Hp Hs' Hd | c pc Hc Hp Hs' Hd];
      cbn [currentStart currentEnd]; auto.
    rewrite <- Hij in Hp.
    pose proof (conforming_nth _ _ _ _ _ _ Hconf Hc Hp) as Hok.
    unfold slot_ok in Hok. rewrite Hs' in Hok. subst c. discriminate.
  - repeat split; cbn; lia.
Qed.

(** A value that conforms to the pattern selected for it is a fixed point of
    [formatNumber], cursor range included: the value comes back as it is
    and both offsets are returned unchanged. *)
Theorem formatNumber_fixed_point (s : string) (a b : Z) :
  conforms_to (getPatternFromNumber s) s ->
  formatAt s a b = {| value := s; selectionStart := a; selectionEnd := b |}.
Proof.
  intros Hconf.
  assert (Forall2 slot_ok
            (firstn (List.length (list_ascii_of_string s))
                    (list_ascii_of_string (getPatternFromNumber s)))
            (list_ascii_of_string s)) as Hall.
  { apply conforms_to_Forall2; [|exact Hconf].
    intros k pc. apply good_pattern_chars, getPatternFromNumber_good. }
  unfold formatAt. rewrite formatNumber_final.
  cbn [arg_value JS.to_string defaultStart defaultEnd
       arg_selectionStart arg_selectionEnd].
  destruct (final_of_conforming_cursor s (getPatternFromNumber s) a b Hall)
    as [-> ->].
  f_equal. apply list_ascii_inj.
  exact (final_of_conforming s (getPatternFromNumber s) Hall a b).
Qed.

Lemma formatNumber_fixed_point_witness :
  formatAt "4111 1111 1" 3 7
  = {| value := "4111 1111 1"; selectionStart := 3; selectionEnd := 7 |}.
Proof.
  apply (formatNumber_fixed_point "4111 1111 1" 3 7).
  intros k Hk.
  do 11 (destruct k as [|k];
         [eexists _, _; repeat split; try reflexivity;
          try (intros H; discriminate H); intros H; exfalso; apply H; reflexivity|]).
  simpl in Hk. lia.
Defined.

(** ** Digits only *)

Definition all_digits (v : string) : bool :=
  forallb is_digit (list_ascii_of_string v).

(** On an input of digits every turn keeps a digit or inserts a separator,
    and a cursor at or past the end of the input moves with every
    insertion. *)
Lemma final_all_digits (v pattern : string) (cs0 ce0 : Z) :
  all_digits v = true ->
  String.length v <= slots pattern ->
  (Z.of_nat (String.length v) <= cs0)%Z ->
  (Z.of_nat (String.length v) <= ce0)%Z ->
  let w := final v pattern cs0 ce0 in
  currentStart w
    = (cs0 + Z.of_nat (List.length (out_chars w)) - Z.of_nat (String.length v))%Z /\
  currentEnd w
    = (ce0 + Z.of_nat (List.length (out_chars w)) - Z.of_nat (String.length v))%Z.
Proof.
  intros Hall Hfit Hcs Hce w.
  pose proof (final_inv v pattern cs0 ce0) as Hw. fold w in Hw.
  set (l := list_ascii_of_string v) in *.
  assert (forall n, filter is_digit (firstn n l) = firstn n l) as Hpre.
  { intros n. apply forallb_filter_id, forallb_forall.
    intros x Hx. unfold all_digits in Hall. fold l in Hall.
    rewrite forallb_forall in Hall. apply Hall.
    rewrite <- (firstn_skipn n l). apply in_or_app. auto. }
  assert (i w <= j w /\
          currentStart w = (cs0 + Z.of_nat (j w) - Z.of_nat (i w))%Z /\
          currentEnd w = (ce0 + Z.of_nat (j w) - Z.of_nat (i w))%Z)
    as (Hij & Hs & He).
  { unfold w, final.
    apply (while_invariant v pattern
             (fun w => i w <= j w /\
                currentStart w = (cs0 + Z.of_nat (j w) - Z.of_nat (i w))%Z /\
                currentEnd w = (ce0 + Z.of_nat (j w) - Z.of_nat (i w))%Z));
      [|cbn; lia].
    intros w1 w2 (Hle & Hs & He) Ht.
    destruct Ht as [c Hc Hp Hd | c Hc Hp Hd | c pc Hc Hp Hs' Hd | c pc Hc Hp Hs' Hd];
      fold l in Hc; cbn [currentStart currentEnd i j];
      try (assert (is_digit c = true)
             by (unfold all_digits in Hall; fold l in Hall;
                 rewrite forallb_forall in Hall;
                 apply Hall, (nth_error_In _ _ Hc)); congruence).
    - lia.
    - assert (i w1 < List.length l) by (apply nth_error_Some; congruence).
      rewrite length_list_ascii in Hcs, Hce. fold l in Hcs, Hce.
      unfold shifted.
      destruct (Z.ltb_spec (Z.of_nat (i w1)) (currentStart w1)),
               (Z.ltb_spec (Z.of_nat (i w1)) (currentEnd w1)); lia. }
  assert (i w = String.length v) as Hi.
  { pose proof (final_digits v pattern cs0 ce0) as Hdig. fold w in Hdig.
    rewrite (inv_digits _ _ _ _ _ Hw) in Hdig. fold l in Hdig.
    unfold digits in Hdig. fold l in Hdig.
    rewrite Hpre in Hdig.
    assert (filter is_digit l = l) as Hfull
      by (apply forallb_filter_id; exact Hall).
    rewrite Hfull in Hdig.
    rewrite length_list_ascii in Hfit |- *. fold l in Hfit |- *.
    rewrite (firstn_all2 l Hfit) in Hdig.
    pose proof (inv_i _ _ _ _ _ Hw) as Hle. fold l in Hle.
    apply (f_equal (@List.length ascii)) in Hdig.
    rewrite length_firstn in Hdig. lia. }
  rewrite (inv_length _ _ _ _ _ Hw). lia.
Qed.

(** With digits only, no more than the pattern has placeholders, a caret at
    the end of the input is returned at the end of the formatted value. *)
Theorem formatNumber_caret_at_end (v : string) :
  all_digits v = true ->
  String.length v <= slots (getPatternFromNumber v) ->
  selectionStart (formatValue v) = Z.of_nat (String.length (value (formatValue v)))
  /\ selectionEnd (formatValue v) = Z.of_nat (String.length (value (formatValue v))).
Proof.
  intros Hall Hfit.
  rewrite length_list_ascii. unfold formatValue.
  rewrite formatNumber_out_chars, formatNumber_final.
  cbn [arg_value JS.to_string defaultStart defaultEnd arg_selectionStart
       arg_selectionEnd selectionStart selectionEnd].
  destruct (final_all_digits v (getPatternFromNumber v)
              (Z.of_nat (String.length v)) (Z.of_nat (String.length v))
              Hall Hfit (Z.le_refl _) (Z.le_refl _)) as [Hs He].
  cbv zeta in Hs, He. rewrite Hs, He. lia.
Qed.

Lemma formatNumber_caret_at_end_witness :
  selectionStart (formatValue "378282246310005")
    = Z.of_nat (String.length (value (formatValue "378282246310005")))
  /\ selectionEnd (formatValue "378282246310005")
    = Z.of_nat (String.length (value (formatValue "378282246310005"))).
Proof.
  apply (formatNumber_caret_at_end "378282246310005").
  - reflexivity.
  - vm_compute. lia.
Defined.

(** Formatting twice: for digits only, no more than the pattern has
    placeholders, formatting the formatted value again returns the same
    value and the same cursor range. *)
Theorem formatNumber_idempotent_on_digits (v : string) :
  all_digits v = true ->
  String.length v <= slots (getPatternFromNumber v) ->
  formatValue (value (formatValue v)) = formatValue v.
Proof.
  intros Hall Hfit.
  destruct v as [|d rest]; [vm_compute; reflexivity|].
  assert (is_digit d = true) as Hd
    by (unfold all_digits in Hall; cbn in Hall;
        apply andb_true_iff in Hall; tauto).
  set (v := String d rest) in *.
  set (pat := getPatternFromNumber v) in *.
  set (n := Z.of_nat (String.length v)).
  pose proof (final_inv v pat n n) as Hw.
  assert (list_ascii_of_string (value (formatValue v)) = out_chars (final v pat n n))
    as Ho by reflexivity.
  destruct (final_head d rest pat n n Hd (getPatternFromNumber_good _))
    as (o & Hhead). fold v in Hhead.
  assert (getPatternFromNumber (value (formatValue v)) = pat) as Hpat.
  { rewrite <- (string_of_list_ascii_of_string (value (formatValue v))).
    rewrite Ho, Hhead. cbn [string_of_list_ascii].
    apply getPatternFromNumber_first. }
  assert (Forall2 slot_ok
            (firstn (List.length (list_ascii_of_string (value (formatValue v))))
                    (list_ascii_of_string pat))
            (list_ascii_of_string (value (formatValue v)))) as Hconf.
  { rewrite Ho, (inv_length _ _ _ _ _ Hw). apply Hw. }
  destruct (final_all_digits v pat n n Hall Hfit (Z.le_refl _) (Z.le_refl _))
    as [Hs He]. cbv zeta in Hs, He. rewrite <- Ho in Hs, He.
  set (m := Z.of_nat (String.length (value (formatValue v)))).
  assert (formatValue v = {| value := value (formatValue v);
                             selectionStart := m; selectionEnd := m |}) as Hfirst.
  { unfold m. rewrite length_list_ascii.
    change (selectionStart (formatValue v)) with (currentStart (final v pat n n)) in *.
    destruct (formatValue v) eqn:E. cbn [value] in *.
    unfold formatValue in E. rewrite formatNumber_final in E.
    cbn [arg_value JS.to_string defaultStart defaultEnd arg_selectionStart
         arg_selectionEnd] in E. fold v pat n in E.
    injection E as E1 E2 E3. subst. f_equal; lia. }
  rewrite Hfirst at 2.
  unfold formatValue at 1. rewrite formatNumber_final.
  cbn [arg_value JS.to_string defaultStart defaultEnd arg_selectionStart
       arg_selectionEnd]. fold m. rewrite Hpat.
  destruct (final_of_conforming_cursor (value (formatValue v)) pat m m Hconf)
    as [-> ->].
  f_equal. apply list_ascii_inj.
  exact (final_of_conforming (value (formatValue v)) pat Hconf m m).
Qed.

Lemma formatNumber_idempotent_on_digits_witness :
  formatValue (value (formatValue "5105105105105100"))
  = formatValue "5105105105105100".
Proof.
  apply (formatNumber_idempotent_on_digits "5105105105105100").
  - reflexivity.
  - vm_compute. lia.
Defined.

(** * The digit test *)

(** [isNumber] is a substring test: it accepts exactly the strings that
    occur in ["0123456789"], the empty string among them. On a single
    character it is the digit test, and it rejects [undefined]. *)
Theorem isNumber_accepts (s : string) :
  (isNumber (Some s) = true <->
   exists m, String.substring m (String.length s) "0123456789" = s) /\
  (forall c, isNumber (Some (String c EmptyString)) = is_digit c) /\
  isNumber None = false.
Proof.
  split; [|split; [exact isNumber_char | reflexivity]].
  unfold isNumber, JS.indexOf, JS.to_string.
  destruct (String.index 0 s "0123456789") as [n|] eqn:E.
  - split; [intros _|].
    + exists n. exact (index_correct1 _ _ _ _ E).
    + intros _. destruct (Z.eqb_spec (Z.of_nat n) (-1)); [lia|reflexivity].
  - split; [discriminate|].
    intros (m & Hm). exfalso.
    destruct s as [|c s].
    + apply index_correct4 in E. simpl in E. lia.
    + apply (index_correct3 _ m _ _ E); [discriminate | lia | exact Hm].
Qed.

(** * The snapshot taken on key-down *)

Lemma substring_chars (s : string) (n m : nat) :
  list_ascii_of_string (String.substring n m s)
  = firstn m (skipn n (list_ascii_of_string s)).
Proof.
  revert n m; induction s as [|c s IH]; intros [|n] [|m]; cbn; auto;
    now rewrite IH.
Qed.

Lemma test_digit_substring (s : string) (lo hi : nat) :
  lo <= hi ->
  (JS.test_digit (String.substring lo (hi - lo) s) = true <->
   exists k c, lo <= k < hi /\ String.get k s = Some c /\ is_digit c = true).
Proof.
  intros Hle. unfold JS.test_digit.
  rewrite substring_chars, existsb_exists. split.
  - intros (c & Hin & Hd).
    apply In_nth_error in Hin as (k & Hk).
    rewrite nth_error_firstn in Hk.
    destruct (Nat.ltb_spec k (hi - lo)); [|discriminate].
    rewrite nth_error_skipn in Hk.
    exists (lo + k), c. rewrite get_nth_error. repeat split; auto; lia.
  - intros (k & c & Hk & Hget & Hd).
    exists c. split; [|exact Hd].
    apply (nth_error_In _ (k - lo)).
    rewrite nth_error_firstn.
    destruct (Nat.ltb_spec (k - lo) (hi - lo)); [|lia].
    rewrite nth_error_skipn, <- get_nth_error.
    replace (lo + (k - lo)) with k by lia. exact Hget.
Qed.

Lemma clamp_inside (len : nat) (z : Z) :
  (0 <= z <= Z.of_nat len)%Z -> JS.clamp len z = Z.to_nat z.
Proof. intros H. unfold JS.clamp. f_equal. lia. Qed.

(** [getReversionData] stores the field as the key found it and leaves the
    state and the observer alone. For a cursor range inside the value, the
    snapshot counts as a replacement exactly when the selected range holds
    a digit, so never for a caret, and as adding a space exactly when the
    key is the space. *)
Theorem getReversionData_snapshot (c : CardInput) (e : KeyEvent) :
  let t := key_target e in
  (0 <= selectionStart t <= selectionEnd t)%Z ->
  (selectionEnd t <= Z.of_nat (String.length (value t)))%Z ->
  inputState (getReversionData c e) = inputState c /\
  notified (getReversionData c e) = notified c /\
  exists snapshot,
    reversionData (getReversionData c e) = Some snapshot /\
    reverted snapshot = t /\
    (isAddingSpace snapshot = true <-> key e = " ") /\
    (isReplacing snapshot = true <->
     exists k ch, (selectionStart t <= Z.of_nat k < selectionEnd t)%Z /\
                  String.get k (value t) = Some ch /\ is_digit ch = true) /\
    (selectionStart t = selectionEnd t -> isReplacing snapshot = false).
Proof.
  intros t Hse Hlen.
  split; [reflexivity|]. split; [reflexivity|].
  eexists. split; [reflexivity|].
  cbn [reverted isAddingSpace isReplacing]. fold t.
  assert (JS.substring (value t) (selectionStart t) (selectionEnd t)
          = String.substring (Z.to_nat (selectionStart t))
              (Z.to_nat (selectionEnd t) - Z.to_nat (selectionStart t)) (value t))
    as Hsub.
  { unfold JS.substring. rewrite !clamp_inside by lia.
    rewrite Nat.min_l, Nat.max_r by lia. reflexivity. }
  rewrite Hsub.
  assert (JS.test_digit
            (String.substring (Z.to_nat (selectionStart t))
               (Z.to_nat (selectionEnd t) - Z.to_nat (selectionStart t)) (value t))
          = true <->
          exists k ch, (selectionStart t <= Z.of_nat k < selectionEnd t)%Z /\
                       String.get k (value t) = Some ch /\ is_digit ch = true)
    as Hrep.
  { rewrite test_digit_substring by lia. split.
    - intros (k & ch & Hk & H). exists k, ch. split; [lia | exact H].
    - intros (k & ch & Hk & H). exists k, ch. split; [lia | exact H]. }
  split; [destruct t; reflexivity|].
  split; [apply String.eqb_eq|].
  split; [exact Hrep|].
  intros Hcaret.
  destruct (JS.test_digit _) eqn:E; [|reflexivity].
  destruct (proj1 Hrep eq_refl) as (k & ch & Hk & _). lia.
Qed.

Lemma getReversionData_snapshot_witness :
  inputState (getReversionData
                {| inputState := full_field; reversionData := None; notified := [] |}
                {| key_target := {| value := "5111 1111 1111 1111";
                                    selectionStart := 4; selectionEnd := 5 |};
                   key := "7" |}) = full_field /\
  notified (getReversionData
              {| inputState := full_field; reversionData := None; notified := [] |}
              {| key_target := {| value := "5111 1111 1111 1111";
                                  selectionStart := 4; selectionEnd := 5 |};
                 key := "7" |}) = [] /\
  exists snapshot,
    reversionData (getReversionData
                     {| inputState := full_field; reversionData := None;
                        notified := [] |}
                     {| key_target := {| value := "5111 1111 1111 1111";
                                         selectionStart := 4; selectionEnd := 5 |};
                        key := "7" |}) = Some snapshot /\
    reverted snapshot = {| value := "5111 1111 1111 1111";
                           selectionStart := 4; selectionEnd := 5 |} /\
    (isAddingSpace snapshot = true <-> "7" = " ") /\
    (isReplacing snapshot = true <->
     exists k ch, (4 <= Z.of_nat k < 5)%Z /\
                  String.get k "5111 1111 1111 1111" = Some ch /\
                  is_digit ch = true) /\
    (4%Z = 5%Z -> isReplacing snapshot = false).
Proof.
  apply (getReversionData_snapshot
           {| inputState := full_field; reversionData := None; notified := [] |}
           {| key_target := {| value := "5111 1111 1111 1111";
                               selectionStart := 4; selectionEnd := 5 |};
              key := "7" |}).
  - cbn. lia.
  - vm_compute. discriminate.
Defined.

(** * The component through its events *)

(** The component as it is mounted: [value] defaults to the empty string,
    the state starts at [formatNumber({value})], the snapshot reference at
    [null], and the observer has not been called. *)
Definition mount (value : option string) : CardInput :=
  {| inputState :=
       formatNumber (mkArgs (Some (match value with Some v => v | None => EmptyString end))
                            None None);
     reversionData := None;
     notified := [] |}.

(** What reaches the handlers of the input element: a key-down with the key
    and the cursor range of the field, and a change with the value and the
    cursor range the edit left in the field. *)
Inductive FieldEvent :=
| KeyDown (key : string) (selectionStart selectionEnd : Z)
| Change (value : string) (selectionStart selectionEnd : Z).

(** One event. The input is rendered with [value={inputState.value}], so
    the value a key-down finds in the field is the one of the state.
    [None] is the exception [manageChange] raises. *)
Definition handle (c : CardInput) (ev : FieldEvent) : option CardInput :=
  match ev with
  | KeyDown k a b =>
      Some (getReversionData c
              {| key_target := {| value := value (inputState c);
                                  selectionStart := a; selectionEnd := b |};
                 key := k |})
  | Change v a b =>
      option_map fst
        (manageChange c
           {| target := {| value := v; selectionStart := a; selectionEnd := b |};
              defaultPrevented := false |})
  end.

Fixpoint run (c : CardInput) (evs : list FieldEvent) : option CardInput :=
  match evs with
  | [] => Some c
  | ev :: rest =>
      match handle c ev with
      | Some c' => run c' rest
      | None => None
      end
  end.

(** A value fit for the field: at most 23 characters, digits and spaces
    only, never two spaces in a row. *)
Definition displayable (s : string) : Prop :=
  String.length s <= 23 /\
  forall k c, String.get k s = Some c ->
    (is_digit c = true \/ c = " "%char) /\
    (c = " "%char -> String.get (S k) s <> Some " "%char).


Lemma conforming_displayable (pat out : string) :
  good_pattern pat = true -> String.length pat <= 23 ->
  conforms_to pat out -> displayable out.
Proof.
  intros Hgood Hlen Hconf. split.
  - destruct (Nat.le_gt_cases (String.length out) (String.length pat)) as [H | H];
      [lia|].
    destruct (Hconf (String.length pat)) as (c & pc & _ & Hpc & _); [exact H|].
    apply get_Some_lt in Hpc. lia.
  - intros k c Hk.
    destruct (Hconf k (get_Some_lt _ _ _ Hk)) as (c' & pc & Hc' & Hpc & Hiff & Hdig).
    assert (c' = c) by congruence; subst c'.
    split.
    + destruct (Ascii.eqb_spec c " "); auto.
    + intros -> Hnext.
      destruct (Hconf (S k) (get_Some_lt _ _ _ Hnext))
        as (c2 & pc2 & Hc2 & Hpc2 & Hiff2 & _).
      assert (c2 = " "%char) by congruence; subst c2.
      unfold good_pattern in Hgood. apply andb_true_iff in Hgood as [_ Hsp].
      rewrite get_nth_error in Hpc, Hpc2.
      assert (pc = " "%char) by now apply Hiff.
      assert (pc2 = " "%char) by now apply Hiff2.
      subst pc pc2.
      exact (well_spaced_nth _ k Hsp Hpc Hpc2).
Qed.

Lemma formatNumber_displayable (args : FormatArgs) :
  displayable (value (formatNumber args)).
Proof.
  set (pat := getPatternFromNumber (JS.to_string (arg_value args))).
  apply (conforming_displayable pat).
  - apply getPatternFromNumber_good.
  - destruct (getPatternFromNumber_cases (JS.to_string (arg_value args)))
      as [H | [H | [H | H]]]; unfold pat; rewrite H; simpl; lia.
  - apply conforms_of_Forall2; [apply getPatternFromNumber_good|].
    rewrite formatNumber_out_chars.
    pose proof (final_inv (JS.to_string (arg_value args)) pat
                          (defaultStart args) (defaultEnd args)) as Hw.
    fold pat. rewrite (inv_length _ _ _ _ _ Hw). apply Hw.
Qed.

(** What a change does to the component when a snapshot is in place. *)
Lemma handle_change (c : CardInput) (s : ReversionData) (v : string) (a b : Z) :
  reversionData c = Some s ->
  exists c',
    handle c (Change v a b) = Some c' /\
    reversionData c' = Some s /\
    ((inputState c' = reverted s /\ notified c' = notified c)
     \/
     (inputState c' = formatNumber (mkArgs (Some v) (Some a) (Some b)) /\
      notified c' =
        if String.eqb (value (inputState c)) (value (inputState c'))
        then notified c
        else notified c ++ [value (inputState c')])).
Proof.
  intros Hs. unfold handle, manageChange. rewrite Hs.
  cbn [target value selectionStart selectionEnd].
  assert (exists c',
            option_map fst (Some (revertState c
               {| target := {| value := v; selectionStart := a; selectionEnd := b |};
                  defaultPrevented := false |} (reverted s))) = Some c' /\
            reversionData c' = Some s /\
            inputState c' = reverted s /\ notified c' = notified c) as Hrev.
  { eexists. split; [reflexivity|]. cbn. rewrite Hs.
    destruct (reverted s); auto. }
  destruct (JS.test_not_digit_or_space v);
    [destruct Hrev as (c' & H1 & H2 & H3); exists c'; tauto|].
  destruct (_ && negb (isReplacing s));
    [destruct Hrev as (c' & H1 & H2 & H3); exists c'; tauto|].
  destruct (isAddingSpace s && _);
    [destruct Hrev as (c' & H1 & H2 & H3); exists c'; tauto|].
  destruct (String.eqb _ _) eqn:E; cbn [negb];
    eexists; (split; [reflexivity|]); (split; [exact Hs|]); right;
    cbn [fst inputState notified setInputState]; rewrite E; auto.
Qed.

Lemma handle_key_down (c : CardInput) (k : string) (a b : Z) :
  exists s,
    handle c (KeyDown k a b)
    = Some {| inputState := inputState c; reversionData := Some s;
              notified := notified c |} /\
    reverted s = {| value := value (inputState c);
                    selectionStart := a; selectionEnd := b |} /\
    isAddingSpace s = String.eqb k " " /\
    (a = b -> isReplacing s = false).
Proof.
  eexists. split; [reflexivity|].
  cbn [reverted isAddingSpace isReplacing key key_target value
       selectionStart selectionEnd].
  repeat split.
  intros ->. unfold JS.test_digit, JS.substring.
  rewrite substring_chars, Nat.max_id, Nat.min_id, Nat.sub_diag.
  reflexivity.
Qed.

(** ** What the field shows *)

(** Whatever the events, the field shows a displayable value, and the
    observer is only ever called with displayable values. *)
Theorem field_stays_displayable (v : option string) (evs : list FieldEvent)
        (c : CardInput) :
  run (mount v) evs = Some c ->
  displayable (value (inputState c)) /\
  Forall displayable (notified c).
Proof.
  intros Hrun.
  assert (forall evs c0 c1,
            run c0 evs = Some c1 ->
            (displayable (value (inputState c0)) /\
             Forall displayable (notified c0) /\
             forall s, reversionData c0 = Some s ->
                       displayable (value (reverted s))) ->
            displayable (value (inputState c1)) /\
            Forall displayable (notified c1)) as Hind.
  { clear. induction evs as [|ev evs IH]; intros c0 c1 Hrun (Hd & Hn & Hs).
    - injection Hrun as <-. auto.
    - cbn [run] in Hrun.
      destruct (handle c0 ev) as [c'|] eqn:Eh; [|discriminate].
      apply (IH c' c1 Hrun).
      destruct ev as [k a b | v a b].
      + destruct (handle_key_down c0 k a b) as (s & Hk & Hr & _).
        rewrite Hk in Eh. injection Eh as <-.
        cbn [inputState notified reversionData].
        split; [exact Hd|]. split; [exact Hn|].
        intros s' [= <-]. rewrite Hr. exact Hd.
      + destruct (reversionData c0) as [s|] eqn:Es;
          [|unfold handle, manageChange in Eh; rewrite Es in Eh; discriminate].
        destruct (handle_change c0 s v a b Es) as (c2 & Hc & Hr & Hout).
        rewrite Hc in Eh. injection Eh as <-.
        destruct Hout as [[Hi Hno] | [Hi Hno]].
        * rewrite Hi, Hno, Hr.
          split; [now apply Hs|]. split; [exact Hn|].
          intros s' [= <-]. now apply Hs.
        * assert (displayable (value (inputState c2))) as Hnew
            by (rewrite Hi; apply formatNumber_displayable).
          rewrite Hno, Hr.
          split; [exact Hnew|]. split.
          -- destruct (String.eqb _ _); auto.
             apply Forall_app; auto.
          -- intros s' [= <-]. now apply Hs. }
  apply (Hind evs (mount v) c Hrun).
  split; [apply formatNumber_displayable|].
  split; [constructor | discriminate].
Qed.

Lemma field_stays_displayable_witness :
  displayable "4" /\ Forall displayable ["4"].
Proof.
  apply (field_stays_displayable None [KeyDown "4" 0 0; Change "4" 1 1]
           {| inputState := {| value := "4"; selectionStart := 1; selectionEnd := 1 |};
              reversionData :=
                Some {| reverted := {| value := EmptyString; selectionStart := 0;
                                       selectionEnd := 0 |};
                        isReplacing := false; isAddingSpace := false |};
              notified := ["4"] |}).
  vm_compute. reflexivity.
Defined.

(** The handlers fail exactly when a change arrives before any key-down:
    from the mounted component a sequence of events raises the exception
    if and only if its first event is a change. *)
Theorem run_fails_on_change_first (v : option string) (evs : list FieldEvent) :
  run (mount v) evs = None <->
  exists v' a b rest, evs = Change v' a b :: rest.
Proof.
  assert (forall evs c s, reversionData c = Some s -> run c evs <> None) as Hok.
  { clear. induction evs as [|ev evs IH]; intros c s Hs; [discriminate|].
    cbn [run]. destruct ev as [k a b | v a b].
    - destruct (handle_key_down c k a b) as (s' & Hk & _).
      rewrite Hk. eapply IH. reflexivity.
    - destruct (handle_change c s v a b Hs) as (c' & Hc & Hr & _).
      rewrite Hc. eapply IH. exact Hr. }
  split.
  - destruct evs as [|[k a b | v' a b] rest]; [discriminate | | eauto].
    cbn [run]. destruct (handle_key_down (mount v) k a b) as (s & Hk & _).
    rewrite Hk. intros H. exfalso. revert H. eapply Hok. reflexivity.
  - intros (v' & a & b & rest & ->). reflexivity.
Qed.



(** ** Rejected keystrokes *)

Lemma strict_eq_true (a : JS.value) (s : string) :
  JS.strict_eq a s = true -> a = Some s.
Proof.
  destruct a as [t|]; simpl; [|discriminate].
  intros H. apply String.eqb_eq in H. congruence.
Qed.

Lemma manageChange_reverts (c : CardInput) (s : ReversionData) (e : ChangeEvent) :
  reversionData c = Some s ->
  JS.test_not_digit_or_space (value (target e)) = true
  \/ (String.length (value (reverted s))
        = String.length (getPatternFromNumber (value (target e))) /\
      String.length (getPatternFromNumber (value (target e)))
        <= String.length (value (target e)) /\
      isReplacing s = false)
  \/ (isAddingSpace s = true /\
      JS.indexZ (getPatternFromNumber (value (target e)))
                (selectionStart (reverted s)) <> Some " ") ->
  manageChange c e = Some (revertState c e (reverted s)).
Proof.
  intros Hs Hwhy. unfold manageChange. rewrite Hs.
  destruct (JS.test_not_digit_or_space (value (target e))) eqn:E1; [reflexivity|].
  destruct (_ && negb (isReplacing s)) eqn:E2; [reflexivity|].
  destruct (isAddingSpace s && _) eqn:E3; [reflexivity|].
  exfalso. destruct Hwhy as [H | [(Hlen & Hle & Hrep) | (Hsp & Hno)]].
  - discriminate.
  - rewrite Hlen, Nat.eqb_refl, Hrep in E2.
    apply Nat.leb_le in Hle. rewrite Hle in E2. discriminate.
  - rewrite Hsp in E3. cbn [andb] in E3.
    apply negb_false_iff, strict_eq_true in E3. contradiction.
Qed.

(** A keystroke the guard turns down leaves the field as the key found it.
    After a key-down and the change that follows it, the state holds the
    value and the cursor range of the key-down, and the observer is not
    called, whenever the new value has a character that is neither a digit
    nor a space, or the key came with a caret into a field already as long
    as the pattern of the new value and the new value is no shorter, or the
    key is the space and the pattern of the new value has no separator at
    the start of the cursor range. *)
Theorem rejected_keystroke (c : CardInput) (k : string) (a b : Z)
        (v : string) (a' b' : Z) :
  JS.test_not_digit_or_space v = true
  \/ (a = b /\
      String.length (value (inputState c))
        = String.length (getPatternFromNumber v) /\
      String.length (getPatternFromNumber v) <= String.length v)
  \/ (k = " " /\ JS.indexZ (getPatternFromNumber v) a <> Some " ") ->
  exists s,
    run c [KeyDown k a b; Change v a' b']
    = Some {| inputState := {| value := value (inputState c);
                               selectionStart := a; selectionEnd := b |};
              reversionData := Some s;
              notified := notified c |}.
Proof.
  intros Hwhy. cbn [run].
  destruct (handle_key_down c k a b) as (s & Hk & Hr & Hsp & Hcaret).
  rewrite Hk. exists s. unfold handle.
  rewrite (manageChange_reverts _ s).
  - cbn. rewrite Hr. reflexivity.
  - reflexivity.
  - cbn [target value]. rewrite Hr. cbn [value selectionStart].
    destruct Hwhy as [H | [(Hab & Hlen & Hle) | (Hkey & Hno)]].
    + left. exact H.
    + right; left. auto.
    + right; right. rewrite Hsp, Hkey. auto.
Qed.

Lemma rejected_keystroke_witness :
  exists s,
    run (mount (Some "4111")) [KeyDown " " 2 2; Change "41 11" 3 3]
    = Some {| inputState := {| value := value (inputState (mount (Some "4111")));
                               selectionStart := 2; selectionEnd := 2 |};
              reversionData := Some s;
              notified := notified (mount (Some "4111")) |}.
Proof.
  apply (rejected_keystroke (mount (Some "4111")) " " 2 2 "41 11" 3 3).
  right; right. split; [reflexivity|]. vm_compute. discriminate.
Defined.

(** A change never invents or reorders digits: after it the field holds the
    digits of the snapshot, or the digits of the new value cut to the
    number of placeholders of its pattern. *)
Theorem change_keeps_digits (c c' : CardInput) (s : ReversionData)
        (v : string) (a b : Z) :
  reversionData c = Some s ->
  handle c (Change v a b) = Some c' ->
  digits (value (inputState c')) = digits (value (reverted s)) \/
  digits (value (inputState c'))
  = firstn (slots (getPatternFromNumber v)) (digits v).
Proof.
  intros Hs Hh.
  destruct (handle_change c s v a b Hs) as (c2 & Hc & _ & Hout).
  rewrite Hc in Hh. injection Hh as <-.
  destruct Hout as [[Hi _] | [Hi _]]; rewrite Hi; [left; reflexivity|].
  right. unfold digits at 1. rewrite formatNumber_out_chars.
  apply final_digits.
Qed.

Lemma change_keeps_digits_witness :
  digits "4111 1" = digits "4111" \/
  digits "4111 1" = firstn (slots (getPatternFromNumber "41111")) (digits "41111").
Proof.
  apply (change_keeps_digits
           {| inputState := {| value := "4111"; selectionStart := 4; selectionEnd := 4 |};
              reversionData :=
                Some {| reverted := {| value := "4111"; selectionStart := 4;
                                       selectionEnd := 4 |};
                        isReplacing := false; isAddingSpace := false |};
              notified := [] |}
           {| inputState := {| value := "4111 1"; selectionStart := 6; selectionEnd := 6 |};
              reversionData :=
                Some {| reverted := {| value := "4111"; selectionStart := 4;
                                       selectionEnd := 4 |};
                        isReplacing := false; isAddingSpace := false |};
              notified := ["4111 1"] |}
           {| reverted := {| value := "4111"; selectionStart := 4; selectionEnd := 4 |};
              isReplacing := false; isAddingSpace := false |}
           "41111" 5 5).
  - reflexivity.
  - vm_compute. reflexivity.
Defined.

(** * The attributes handed to the elements *)

Section Objects.

(** The values of properties, whatever they are. *)
Variable V : Type.

(** An object: its properties in the order they were added, each key
    once. For [props] these are the properties [in] finds, inherited ones
    included; for an object built here, its own properties. The keys
    assigned are ordinary names (the masks of the component are
    [style], [className], [id], [name] and [size]). *)
Definition object := list (string * V).

(** [obj[key]], and [None] when [key in obj] is false. *)
Fixpoint lookup (obj : object) (key : string) : option V :=
  match obj with
  | [] => None
  | (k, v) :: rest => if String.eqb k key then Some v else lookup rest key
  end.

(** [obj[key] = v]: replaces the value of a key the object has, adds the
    key at the end otherwise. *)
Fixpoint assign (obj : object) (key : string) (v : V) : object :=
  match obj with
  | [] => [(key, v)]
  | (k, x) :: rest =>
      if String.eqb k key then (k, v) :: rest else (k, x) :: assign rest key v
  end.

(** [mask] is [Object.keys(mask)] of the source's mask object. *)
Definition maskProps (props : object) (mask : list string) : object :=
  fold_left
    (fun newProps key =>
       match lookup props key with
       | Some v => assign newProps key v
       | None => newProps
       end)
    mask [].

Definition has (obj : object) (key : string) : bool :=
  match lookup obj key with
  | Some _ => true
  | None => false
  end.

Lemma lookup_assign (obj : object) (key k : string) (v : V) :
  lookup (assign obj key v) k
  = if String.eqb key k then Some v else lookup obj k.
Proof.
  induction obj as [|[k0 x] obj IH]; cbn [assign lookup]; [reflexivity|].
  destruct (String.eqb_spec k0 key) as [-> | Hne]; cbn [lookup].
  - destruct (String.eqb key k); reflexivity.
  - rewrite IH.
    destruct (String.eqb_spec k0 k) as [-> | Hne']; [|reflexivity].
    destruct (String.eqb_spec key k); [congruence | reflexivity].
Qed.

Lemma keys_assign_new (obj : object) (key : string) (v : V) :
  ~ In key (map fst obj) ->
  map fst (assign obj key v) = map fst obj ++ [key].
Proof.
  induction obj as [|[k0 x] obj IH]; cbn [assign map fst In app]; intros Hn;
    [reflexivity|].
  destruct (String.eqb_spec k0 key) as [-> | Hne]; [tauto|].
  cbn [map fst]. f_equal. apply IH. tauto.
Qed.

Lemma maskProps_fold_lookup (props : object) (mask : list string)
      (acc : object) (k : string) :
  lookup
    (fold_left
       (fun newProps key =>
          match lookup props key with
          | Some v => assign newProps key v
          | None => newProps
          end) mask acc) k
  = match (if existsb (String.eqb k) mask then lookup props k else None) with
    | Some v => Some v
    | None => lookup acc k
    end.
Proof.
  revert acc; induction mask as [|m mask IH]; intros acc; cbn [fold_left existsb];
    [reflexivity|].
  rewrite IH.
  assert (lookup match lookup props m with
                 | Some v => assign acc m v
                 | None => acc
                 end k
          = if String.eqb k m
            then match lookup props k with
                 | Some v => Some v
                 | None => lookup acc k
                 end
            else lookup acc k) as Hstep.
  { destruct (String.eqb_spec k m) as [-> | Hne].
    - destruct (lookup props m) as [v|]; [|reflexivity].
      now rewrite lookup_assign, String.eqb_refl.
    - destruct (lookup props m) as [v|]; [|reflexivity].
      rewrite lookup_assign.
      destruct (String.eqb_spec m k); [congruence | reflexivity]. }
  rewrite Hstep.
  destruct (String.eqb k m), (existsb (String.eqb k) mask), (lookup props k);
    reflexivity.
Qed.

Lemma existsb_eqb_In (k : string) (mask : list string) :
  existsb (String.eqb k) mask = true <-> In k mask.
Proof.
  rewrite existsb_exists. split.
  - intros (x & Hin & Heq). apply String.eqb_eq in Heq. now subst.
  - intros Hin. exists k. split; [exact Hin | apply String.eqb_refl].
Qed.

Lemma maskProps_get (props : object) (mask : list string) (k : string) :
  lookup (maskProps props mask) k
  = if existsb (String.eqb k) mask then lookup props k else None.
Proof.
  unfold maskProps. rewrite maskProps_fold_lookup.
  destruct (existsb (String.eqb k) mask); [|reflexivity].
  destruct (lookup props k); reflexivity.
Qed.

(** [maskProps] copies the properties the mask names and nothing else: a
    key of the mask has in the result the value it has in [props] (and is
    absent when [props] has no such key), every other key is absent. *)
Theorem maskProps_lookup (props : object) (mask : list string) (k : string) :
  (In k mask -> lookup (maskProps props mask) k = lookup props k) /\
  (~ In k mask -> lookup (maskProps props mask) k = None).
Proof.
  rewrite maskProps_get.
  destruct (existsb (String.eqb k) mask) eqn:E.
  - apply existsb_eqb_In in E. tauto.
  - split; [|reflexivity].
    intros Hin. apply existsb_eqb_In in Hin. congruence.
Qed.

(** The properties of the result come in the order of the mask: its keys
    are the keys of the mask that [props] has. *)
Theorem maskProps_keys (props : object) (mask : list string) :
  NoDup mask ->
  map fst (maskProps props mask) = filter (has props) mask.
Proof.
  intros Hnd. unfold maskProps.
  change (filter (has props) mask)
    with (map fst (@nil (string * V)) ++ filter (has props) mask).
  assert (forall k, In k mask -> ~ In k (map fst (@nil (string * V)))) as Hfresh
    by (intros k _ []).
  revert Hfresh. generalize (@nil (string * V)) as acc.
  induction Hnd as [|m mask Hm Hnd IH]; intros acc Hfresh;
    cbn [fold_left filter]; [now rewrite app_nil_r|].
  unfold has at 1.
  destruct (lookup props m) as [v|] eqn:Ep.
  - rewrite IH.
    + rewrite keys_assign_new by (apply Hfresh; left; reflexivity).
      now rewrite <- app_assoc.
    + intros k Hk. rewrite keys_assign_new by (apply Hfresh; left; reflexivity).
      intros Hin. apply in_app_or in Hin as [Hin | [<- | []]].
      * apply (Hfresh k); [right; exact Hk | exact Hin].
      * contradiction.
  - apply IH. intros k Hk. apply Hfresh. right. exact Hk.
Qed.

End Objects.

Section SpanAttributes.

(** [str] is a string as a value, [plus] the operator [+]. *)
Variable V : Type.
Variable str : string -> V.
Variable plus : V -> V -> V.

(** [styles.input], the class name the style sheet exports. *)
Variable styles_input : string.

Definition spanAttrs (props : object V) : object V :=
  let spanAttrs := maskProps V props ["style"; "className"] in
  assign V spanAttrs "className"
    match lookup V spanAttrs "className" with
    | Some className => plus (plus className (str " ")) (str styles_input)
    | None => str styles_input
    end.

(** The wrapping element gets [style] as given and always a [className]:
    the class of the style sheet, after the given class and a space when
    one is given. No other property reaches it. *)
Theorem spanAttrs_lookup (props : object V) (k : string) :
  lookup V (spanAttrs props) "className"
  = Some match lookup V props "className" with
         | Some className => plus (plus className (str " ")) (str styles_input)
         | None => str styles_input
         end /\
  lookup V (spanAttrs props) "style" = lookup V props "style" /\
  (k <> "className" -> k <> "style" -> lookup V (spanAttrs props) k = None).
Proof.
  unfold spanAttrs. rewrite !lookup_assign, !maskProps_get.
  split; [reflexivity|]. split; [reflexivity|].
  intros H1 H2. cbn [existsb].
  destruct (String.eqb_spec "className" k); [congruence|].
  destruct (String.eqb_spec k "style"); [congruence|].
  destruct (String.eqb_spec k "className"); [congruence|].
  reflexivity.
Qed.

End SpanAttributes.

Section InputAttributes.

(** [str] is a string as a value, [truthy] what [||] tests. *)
Variable V : Type.
Variable str : string -> V.
Variable truthy : V -> bool.

Definition inputAttrs (props : object V) : object V :=
  let inputAttrs := maskProps V props ["id"; "name"; "size"] in
  assign V inputAttrs "size"
    match lookup V inputAttrs "size" with
    | Some size => if truthy size then size else str "25"
    | None => str "25"
    end.

(** The input gets [id] and [name] as given and always a [size]: the given
    one when it is truthy, ['25'] otherwise. No other property reaches it
    through these attributes. *)
Theorem inputAttrs_lookup (props : object V) (k : string) :
  lookup V (inputAttrs props) "size"
  = Some match lookup V props "size" with
         | Some size => if truthy size then size else str "25"
         | None => str "25"
         end /\
  lookup V (inputAttrs props) "id" = lookup V props "id" /\
  lookup V (inputAttrs props) "name" = lookup V props "name" /\
  (k <> "id" -> k <> "name" -> k <> "size" -> lookup V (inputAttrs props) k = None).
Proof.
  unfold inputAttrs. rewrite !lookup_assign, !maskProps_get.
  split; [reflexivity|]. split; [reflexivity|]. split; [reflexivity|].
  intros H1 H2 H3. cbn [existsb].
  destruct (String.eqb_spec "size" k); [congruence|].
  destruct (String.eqb_spec k "id"); [congruence|].
  destruct (String.eqb_spec k "name"); [congruence|].
  destruct (String.eqb_spec k "size"); [congruence|].
  reflexivity.
Qed.

End InputAttributes.


Lemma maskProps_keys_witness :
  map fst (maskProps nat [("name", 1); ("onClick", 2); ("id", 3)] ["id"; "name"; "size"])
  = filter (has nat [("name", 1); ("onClick", 2); ("id", 3)]) ["id"; "name"; "size"].
Proof.
  apply (maskProps_keys nat [("name", 1); ("onClick", 2); ("id", 3)]
                        ["id"; "name"; "size"]).
  repeat constructor; simpl; intros H; repeat destruct H as [H | H];
    try discriminate; auto.
Defined.

(** * The characters the walk loses *)

Section Lost.

Variables inputNumber pattern : string.

(** What the body of the loop computes from the pattern character and the
    input character it meets. *)
Definition processed (w : Walk) : Processed :=
  if JS.strict_eq (JS.index pattern (j w)) "#"
  then processNumber (JS.index inputNumber (i w))
  else processSpace (JS.index inputNumber (i w)).

(** The turns of the loop, from [w] on, that read an input character and do
    not write it: those with [addToOutput] false. *)
Fixpoint dropped_from (fuel : nat) (w : Walk) : nat :=
  match fuel with
  | O => 0
  | S fuel' =>
      if loop_cond inputNumber pattern w
      then (if addToOutput (processed w) then 0 else 1)
           + dropped_from fuel' (loop_body inputNumber pattern w)
      else 0
  end.

(** One turn: an offset never moves back, and it gains on [j - i] only by
    a dropped character; an offset at or past the end of the input never
    falls behind. *)
Lemma turn_balance (w : Walk) :
  loop_cond inputNumber pattern w = true ->
  let w' := loop_body inputNumber pattern w in
  let d := Z.of_nat (if addToOutput (processed w) then 0 else 1) in
  (currentStart w' - Z.of_nat (j w') + Z.of_nat (i w') - d
   <= currentStart w - Z.of_nat (j w) + Z.of_nat (i w))%Z /\
  (currentEnd w' - Z.of_nat (j w') + Z.of_nat (i w') - d
   <= currentEnd w - Z.of_nat (j w) + Z.of_nat (i w))%Z /\
  (currentStart w <= currentStart w')%Z /\
  (currentEnd w <= currentEnd w')%Z /\
  ((Z.of_nat (String.length inputNumber) <= currentStart w)%Z ->
   (currentStart w' - Z.of_nat (j w') + Z.of_nat (i w') - d
    = currentStart w - Z.of_nat (j w) + Z.of_nat (i w))%Z) /\
  ((Z.of_nat (String.length inputNumber) <= currentEnd w)%Z ->
   (currentEnd w' - Z.of_nat (j w') + Z.of_nat (i w') - d
    = currentEnd w - Z.of_nat (j w) + Z.of_nat (i w))%Z).
Proof.
  intros Hcond w' d.
  pose proof (loop_body_turn inputNumber pattern w Hcond) as Ht. fold w' in Ht.
  apply loop_cond_true in Hcond as [Hi _].
  rewrite <- length_list_ascii in Hi.
  subst d. clearbody w'. unfold processed.
  destruct Ht as [c Hc Hp Hd | c Hc Hp Hd | c pc Hc Hp Hs Hd | c pc Hc Hp Hs Hd];
    rewrite (index_char _ _ _ Hc), (index_char _ _ _ Hp), strict_eq_slot;
    cbn [currentStart currentEnd i j].
  - change (is_slot "#") with true. cbn [processNumber addToOutput].
    rewrite isNumber_char, Hd. lia.
  - change (is_slot "#") with true. cbn [processNumber addToOutput].
    rewrite isNumber_char, Hd. lia.
  - rewrite Hs. cbn [processSpace addToOutput]. lia.
  - rewrite Hs. cbn [processSpace addToOutput]. unfold shifted.
    destruct (Z.ltb_spec (Z.of_nat (i w)) (currentStart w)),
             (Z.ltb_spec (Z.of_nat (i w)) (currentEnd w)); lia.
Qed.

(** The whole run. *)
Lemma run_balance (fuel : nat) (w : Walk) :
  let w' := while inputNumber pattern fuel w in
  let d := Z.of_nat (dropped_from fuel w) in
  (currentStart w' - Z.of_nat (j w') + Z.of_nat (i w') - d
   <= currentStart w - Z.of_nat (j w) + Z.of_nat (i w))%Z /\
  (currentEnd w' - Z.of_nat (j w') + Z.of_nat (i w') - d
   <= currentEnd w - Z.of_nat (j w) + Z.of_nat (i w))%Z /\
  ((Z.of_nat (String.length inputNumber) <= currentStart w)%Z ->
   (currentStart w' - Z.of_nat (j w') + Z.of_nat (i w') - d
    = currentStart w - Z.of_nat (j w) + Z.of_nat (i w))%Z) /\
  ((Z.of_nat (String.length inputNumber) <= currentEnd w)%Z ->
   (currentEnd w' - Z.of_nat (j w') + Z.of_nat (i w') - d
    = currentEnd w - Z.of_nat (j w) + Z.of_nat (i w))%Z).
Proof.
  revert w; induction fuel as [|fuel IH]; intros w; cbn [while dropped_from].
  - cbn. lia.
  - destruct (loop_cond inputNumber pattern w) eqn:Hcond; [|cbn; lia].
    destruct (turn_balance w Hcond) as (T1 & T2 & T3 & T4 & T5 & T6).
    destruct (IH (loop_body inputNumber pattern w)) as (R1 & R2 & R3 & R4).
    cbv zeta in *. rewrite Nat2Z.inj_add.
    split; [lia|]. split; [lia|].
    split; intros H; [specialize (T5 H) | specialize (T6 H)]; lia.
Qed.

(** The indices and the output of the walk do not depend on the cursor
    offsets. *)
Definition same_walk (w1 w2 : Walk) : Prop :=
  i w1 = i w2 /\ j w1 = j w2 /\ outputNumber w1 = outputNumber w2.

Lemma run_same_walk (fuel : nat) (w1 w2 : Walk) :
  same_walk w1 w2 ->
  same_walk (while inputNumber pattern fuel w1) (while inputNumber pattern fuel w2)
  /\ dropped_from fuel w1 = dropped_from fuel w2.
Proof.
  revert w1 w2; induction fuel as [|fuel IH]; intros w1 w2 Hs;
    cbn [while dropped_from]; [auto|].
  destruct Hs as (Hi & Hj & Ho).
  assert (loop_cond inputNumber pattern w1 = loop_cond inputNumber pattern w2)
    as Hc by (unfold loop_cond; now rewrite Hi, Hj).
  assert (processed w1 = processed w2) as Hp
    by (unfold processed; now rewrite Hi, Hj).
  rewrite Hc, Hp.
  destruct (loop_cond inputNumber pattern w2); [|unfold same_walk; auto].
  destruct (IH (loop_body inputNumber pattern w1) (loop_body inputNumber pattern w2))
    as [H1 H2]; [|split; [exact H1 | now rewrite H2]].
  unfold loop_body. rewrite Hi, Hj, Ho.
  destruct (JS.strict_eq (JS.index pattern (j w2)) "#");
    cbn [processNumber processSpace addToOutput shiftInput outCharacter];
    destruct (isNumber (JS.index inputNumber (i w2)));
    cbn [negb outputNumber currentStart currentEnd i j];
    repeat match goal with
           | |- context [if ?b then _ else _] => destruct b
           end;
    unfold same_walk; cbn [outputNumber i j]; auto.
Qed.

End Lost.

(** The input characters [formatNumber] drops: those it reads without
    writing them, non-digits met under a placeholder. *)
Definition dropped (inputNumber : string) : nat :=
  let pattern := getPatternFromNumber inputNumber in
  let w0 := {| outputNumber := []; currentStart := 0; currentEnd := 0;
               i := 0; j := 0 |} in
  dropped_from inputNumber pattern (turns inputNumber pattern w0) w0.

(** The input characters [formatNumber] leaves unread: those past the
    index [i] at which the loop stops. *)
Definition unread (inputNumber : string) : nat :=
  String.length inputNumber
  - i (final inputNumber (getPatternFromNumber inputNumber) 0 0).

(** The end of the returned range against the length of the returned
    value. *)
Lemma final_lost (inputNumber : string) (cs0 ce0 : Z) :
  let w := final inputNumber (getPatternFromNumber inputNumber) cs0 ce0 in
  let lost := (Z.of_nat (dropped inputNumber) + Z.of_nat (unread inputNumber))%Z in
  let len := Z.of_nat (String.length inputNumber) in
  let out := Z.of_nat (List.length (out_chars w)) in
  (currentStart w <= cs0 - len + out + lost)%Z /\
  (currentEnd w <= ce0 - len + out + lost)%Z /\
  ((len <= cs0)%Z -> currentStart w = (cs0 - len + out + lost)%Z) /\
  ((len <= ce0)%Z -> currentEnd w = (ce0 - len + out + lost)%Z).
Proof.
  intros w lost len out.
  set (pattern := getPatternFromNumber inputNumber) in *.
  set (w0 := {| outputNumber := []; currentStart := cs0; currentEnd := ce0;
                i := 0; j := 0 |}).
  set (z0 := {| outputNumber := []; currentStart := 0%Z; currentEnd := 0%Z;
                i := 0; j := 0 |}).
  pose proof (final_inv inputNumber pattern cs0 ce0) as Hw. fold w in Hw.
  assert (same_walk w0 z0) as Hsame by (unfold same_walk; auto).
  destruct (run_same_walk inputNumber pattern (turns inputNumber pattern w0) w0 z0 Hsame)
    as [(Hi & _ & _) Hd].
  assert (turns inputNumber pattern w0 = turns inputNumber pattern z0) as Ht
    by reflexivity.
  assert (i w = i (final inputNumber pattern 0 0)) as Hiw by exact Hi.
  assert (dropped_from inputNumber pattern (turns inputNumber pattern w0) w0
          = dropped inputNumber) as Hdw by (rewrite Hd; reflexivity).
  destruct (run_balance inputNumber pattern (turns inputNumber pattern w0) w0)
    as (R1 & R2 & R3 & R4).
  cbv zeta in R1, R2, R3, R4. rewrite Hdw in R1, R2, R3, R4.
  change (while inputNumber pattern (turns inputNumber pattern w0) w0) with w
    in R1, R2, R3, R4.
  cbn [currentStart currentEnd i j w0] in R1, R2, R3, R4.
  pose proof (inv_length _ _ _ _ _ Hw) as Hlen.
  pose proof (inv_i _ _ _ _ _ Hw) as Hile. rewrite <- length_list_ascii in Hile.
  assert (Z.of_nat (unread inputNumber) = len - Z.of_nat (i w))%Z as Hun.
  { unfold unread. fold pattern. rewrite <- Hiw. unfold len. lia. }
  unfold lost, out. rewrite Hun, Hlen.
  split; [lia|]. split; [lia|].
  split; intros H; [specialize (R3 H) | specialize (R4 H)]; lia.
Qed.

(** Where nothing is lost: digits only, no more than the pattern has
    placeholders. *)
Lemma nothing_lost_on_digits (v : string) :
  all_digits v = true ->
  String.length v <= slots (getPatternFromNumber v) ->
  dropped v = 0 /\ unread v = 0.
Proof.
  intros Hall Hfit.
  set (n := Z.of_nat (String.length v)).
  destruct (final_all_digits v (getPatternFromNumber v) n n Hall Hfit
              (Z.le_refl _) (Z.le_refl _)) as [Hs _].
  destruct (final_lost v n n) as (_ & _ & He & _).
  cbv zeta in Hs, He. specialize (He (Z.le_refl _)). fold n in He.
  rewrite Hs in He. lia.
Qed.

Lemma formatNumber_conforms (args : FormatArgs) :
  conforms_to (getPatternFromNumber (JS.to_string (arg_value args)))
              (value (formatNumber args)).
Proof.
  apply conforms_of_Forall2; [apply getPatternFromNumber_good|].
  rewrite formatNumber_out_chars.
  pose proof (final_inv (JS.to_string (arg_value args))
                (getPatternFromNumber (JS.to_string (arg_value args)))
                (defaultStart args) (defaultEnd args)) as Hw.
  rewrite (inv_length _ _ _ _ _ Hw). apply Hw.
Qed.

Lemma conforming_Forall2 (s : string) :
  conforms_to (getPatternFromNumber s) s ->
  Forall2 slot_ok
    (firstn (List.length (list_ascii_of_string s))
            (list_ascii_of_string (getPatternFromNumber s)))
    (list_ascii_of_string s).
Proof.
  apply conforms_to_Forall2.
  intros k pc. apply good_pattern_chars, getPatternFromNumber_good.
Qed.

(** Where nothing is lost: a value that conforms to its pattern. *)
Lemma nothing_lost_on_conforming (s : string) :
  conforms_to (getPatternFromNumber s) s ->
  dropped s = 0 /\ unread s = 0.
Proof.
  intros Hconf. apply conforming_Forall2 in Hconf.
  set (n := Z.of_nat (String.length s)).
  destruct (final_of_conforming_cursor s (getPatternFromNumber s) n n Hconf)
    as [_ He].
  destruct (final_lost s n n) as (_ & _ & _ & Hl).
  cbv zeta in Hl. specialize (Hl (Z.le_refl _)).
  rewrite (final_of_conforming s (getPatternFromNumber s) Hconf) in Hl.
  rewrite <- length_list_ascii in Hl. fold n in Hl. lia.
Qed.

(** C5, amended. For a cursor range within the input value, the returned
    range starts at or after 0 and is ordered, and it ends at most as many
    positions past the returned value as the walk lost input characters:
    those it dropped (read without writing them) and those it left unread
    when the pattern ran out. The bound is reached when [selectionEnd] is
    the length of the input. So the range ends within the returned value
    whenever nothing is lost, as for digits only that fit the pattern and
    for a value that already conforms to it. *)
Theorem formatNumber_cursor_bound (args : FormatArgs) :
  let inputNumber := JS.to_string (arg_value args) in
  let r := formatNumber args in
  (0 <= defaultStart args <= defaultEnd args)%Z ->
  (defaultEnd args <= Z.of_nat (String.length inputNumber))%Z ->
  (0 <= selectionStart r <= selectionEnd r)%Z /\
  (selectionEnd r <=
     Z.of_nat (String.length (value r))
     + Z.of_nat (dropped inputNumber) + Z.of_nat (unread inputNumber))%Z /\
  (defaultEnd args = Z.of_nat (String.length inputNumber) ->
   selectionEnd r =
     (Z.of_nat (String.length (value r))
      + Z.of_nat (dropped inputNumber) + Z.of_nat (unread inputNumber))%Z) /\
  (dropped inputNumber = 0 -> unread inputNumber = 0 ->
   (selectionEnd r <= Z.of_nat (String.length (value r)))%Z) /\
  (all_digits inputNumber = true ->
   String.length inputNumber <= slots (getPatternFromNumber inputNumber) ->
   dropped inputNumber = 0 /\ unread inputNumber = 0) /\
  (conforms_to (getPatternFromNumber inputNumber) inputNumber ->
   dropped inputNumber = 0 /\ unread inputNumber = 0).
Proof.
  intros inputNumber r Hse Hlen.
  pose proof (final_inv inputNumber (getPatternFromNumber inputNumber)
                        (defaultStart args) (defaultEnd args)) as Hw.
  destruct (final_lost inputNumber (defaultStart args) (defaultEnd args))
    as (_ & Hb & _ & Hx).
  cbv zeta in Hb, Hx.
  unfold r. rewrite length_list_ascii, formatNumber_out_chars, formatNumber_final.
  cbn [selectionStart selectionEnd]. fold inputNumber.
  pose proof (inv_start _ _ _ _ _ Hw) as Hs0.
  pose proof (inv_ordered _ _ _ _ _ Hw) as Hord.
  split; [lia|]. split; [lia|].
  split; [intros Heq; rewrite Hx by lia; lia|].
  split; [lia|].
  split; [apply nothing_lost_on_digits | apply nothing_lost_on_conforming].
Qed.

Lemma formatNumber_cursor_bound_witness :
  (0 <= selectionStart (formatAt "4111 11112" 4 10)
     <= selectionEnd (formatAt "4111 11112" 4 10))%Z /\
  (selectionEnd (formatAt "4111 11112" 4 10) <=
     Z.of_nat (String.length (value (formatAt "4111 11112" 4 10)))
     + Z.of_nat (dropped "4111 11112") + Z.of_nat (unread "4111 11112"))%Z /\
  (10%Z = Z.of_nat (String.length "4111 11112") ->
   selectionEnd (formatAt "4111 11112" 4 10) =
     (Z.of_nat (String.length (value (formatAt "4111 11112" 4 10)))
      + Z.of_nat (dropped "4111 11112") + Z.of_nat (unread "4111 11112"))%Z) /\
  (dropped "4111 11112" = 0 -> unread "4111 11112" = 0 ->
   (selectionEnd (formatAt "4111 11112" 4 10)
    <= Z.of_nat (String.length (value (formatAt "4111 11112" 4 10))))%Z) /\
  (all_digits "4111 11112" = true ->
   String.length "4111 11112" <= slots (getPatternFromNumber "4111 11112") ->
   dropped "4111 11112" = 0 /\ unread "4111 11112" = 0) /\
  (conforms_to (getPatternFromNumber "4111 11112") "4111 11112" ->
   dropped "4111 11112" = 0 /\ unread "4111 11112" = 0).
Proof.
  apply (formatNumber_cursor_bound (mkArgs (Some "4111 11112") (Some 4%Z) (Some 10%Z))).
  - cbv [defaultStart defaultEnd arg_selectionStart arg_selectionEnd]. lia.
  - vm_compute. discriminate.
Defined.

(** C3, amended. Formatting the formatted value again returns the same
    value exactly when that value conforms to the pattern its own first
    character selects. It does whenever it selects the pattern of the
    input, so whenever the input is empty or starts with a digit. And when
    the value is the same, each cursor offset of the second result is the
    one of the first less the input characters the first run lost (dropped
    or left unread), so the two results are equal exactly when the first
    run lost nothing, as for digits only that fit the pattern and for an
    input that already conforms to it. *)
Theorem formatNumber_twice (v : string) :
  let r := formatValue v in
  let r2 := formatValue (value r) in
  (value r2 = value r <->
   conforms_to (getPatternFromNumber (value r)) (value r)) /\
  (getPatternFromNumber (value r) = getPatternFromNumber v ->
   value r2 = value r) /\
  (v = EmptyString \/ (exists d rest, v = String d rest /\ is_digit d = true) ->
   getPatternFromNumber (value r) = getPatternFromNumber v) /\
  (value r2 = value r ->
   selectionStart r2 = (selectionStart r - Z.of_nat (dropped v + unread v))%Z /\
   selectionEnd r2 = (selectionEnd r - Z.of_nat (dropped v + unread v))%Z /\
   (r2 = r <-> dropped v + unread v = 0)) /\
  (all_digits v = true -> String.length v <= slots (getPatternFromNumber v) ->
   r2 = r) /\
  (conforms_to (getPatternFromNumber v) v -> r2 = r).
Proof.
  intros r r2.
  set (o := value r) in *.
  assert (conforms_to (getPatternFromNumber o) o -> value r2 = o) as Hfix.
  { intros Hconf. apply conforming_Forall2 in Hconf.
    apply list_ascii_inj. unfold r2, formatValue.
    rewrite formatNumber_out_chars. cbn [arg_value JS.to_string].
    apply final_of_conforming. exact Hconf. }
  assert (value r2 = o -> conforms_to (getPatternFromNumber o) o) as Hback.
  { intros Heq.
    pose proof (formatNumber_conforms (mkArgs (Some o) None None)) as Hc.
    cbn [arg_value JS.to_string] in Hc.
    change (formatNumber (mkArgs (Some o) None None)) with r2 in Hc.
    now rewrite Heq in Hc. }
  assert (getPatternFromNumber o = getPatternFromNumber v -> value r2 = o)
    as Hpattern.
  { intros Hpat. apply Hfix. rewrite Hpat.
    exact (formatNumber_conforms (mkArgs (Some v) None None)). }
  assert (v = EmptyString \/
          (exists d rest, v = String d rest /\ is_digit d = true) ->
          getPatternFromNumber o = getPatternFromNumber v) as Hdigit.
  { unfold o, r. clear.
    intros [-> | (d & rest & -> & Hd)]; [reflexivity|].
    set (n := Z.of_nat (String.length (String d rest))).
    destruct (final_head d rest (getPatternFromNumber (String d rest)) n n Hd
                (getPatternFromNumber_good _)) as (o' & Hhead).
    assert (list_ascii_of_string (value (formatValue (String d rest)))
            = out_chars (final (String d rest)
                           (getPatternFromNumber (String d rest)) n n))
      as Ho by reflexivity.
    rewrite <- (string_of_list_ascii_of_string (value (formatValue (String d rest)))).
    rewrite Ho, Hhead.
    cbn [string_of_list_ascii]. apply getPatternFromNumber_first. }
  assert (value r2 = o ->
          selectionStart r2 = (selectionStart r - Z.of_nat (dropped v + unread v))%Z /\
          selectionEnd r2 = (selectionEnd r - Z.of_nat (dropped v + unread v))%Z /\
          (r2 = r <-> dropped v + unread v = 0)) as Hcursor.
  { intros Hsame.
    pose proof (conforming_Forall2 o (Hback Hsame)) as Hall.
    set (m := Z.of_nat (String.length o)).
    set (n := Z.of_nat (String.length v)).
    destruct (final_of_conforming_cursor o (getPatternFromNumber o) m m Hall)
      as [Hs2 He2].
    destruct (final_lost v n n) as (_ & _ & Hs1 & He1).
    cbv zeta in Hs1, He1.
    specialize (Hs1 (Z.le_refl _)). specialize (He1 (Z.le_refl _)).
    change (currentStart (final o (getPatternFromNumber o) m m))
      with (selectionStart r2) in Hs2.
    change (currentEnd (final o (getPatternFromNumber o) m m))
      with (selectionEnd r2) in He2.
    change (currentStart (final v (getPatternFromNumber v) n n))
      with (selectionStart r) in Hs1.
    change (currentEnd (final v (getPatternFromNumber v) n n))
      with (selectionEnd r) in He1.
    change (out_chars (final v (getPatternFromNumber v) n n))
      with (list_ascii_of_string o) in Hs1, He1.
    rewrite <- length_list_ascii in Hs1, He1. fold m in Hs1, He1.
    split; [lia|]. split; [lia|].
    split.
    - intros Heq. rewrite Heq in Hs2. lia.
    - intros Hzero.
      assert (selectionStart r2 = selectionStart r) as E1 by lia.
      assert (selectionEnd r2 = selectionEnd r) as E2 by lia.
      clear - Hsame E1 E2. unfold o in Hsame.
      destruct r, r2. cbn [value selectionStart selectionEnd] in *.
      congruence. }
  split; [split; assumption|].
  split; [exact Hpattern|].
  split; [exact Hdigit|].
  split; [exact Hcursor|].
  split.
  - intros Hall Hfit.
    destruct (nothing_lost_on_digits v Hall Hfit) as [HD HU].
    assert (value r2 = o) as Hsame.
    { apply Hpattern, Hdigit.
      destruct v as [|d rest]; [left; reflexivity|].
      right. exists d, rest. split; [reflexivity|].
      unfold all_digits in Hall. cbn in Hall.
      apply andb_true_iff in Hall. tauto. }
    apply (Hcursor Hsame). lia.
  - intros Hconf.
    destruct (nothing_lost_on_conforming v Hconf) as [HD HU].
    assert (o = v) as Hov.
    { apply list_ascii_inj. unfold o, r, formatValue.
      rewrite formatNumber_out_chars. cbn [arg_value JS.to_string].
      apply final_of_conforming, conforming_Forall2, Hconf. }
    assert (value r2 = o) as Hsame by (apply Hpattern; now rewrite Hov).
    apply (Hcursor Hsame). lia.
Qed.

Lemma formatNumber_twice_witness :
  value (formatValue (value (formatValue " 4111")))
  = value (formatValue " 4111") /\
  selectionEnd (formatValue (value (formatValue " 4111")))
  = (selectionEnd (formatValue " 4111")
     - Z.of_nat (dropped " 4111" + unread " 4111"))%Z.
Proof.
  destruct (formatNumber_twice " 4111") as ((_ & Hfix) & _ & _ & Hcur & _).
  assert (value (formatValue (value (formatValue " 4111")))
          = value (formatValue " 4111")) as Hsame.
  { apply Hfix. intros k Hk.
    do 4 (destruct k as [|k];
          [eexists _, _; repeat split; try reflexivity;
           try (intros H; discriminate H)|]).
    vm_compute in Hk. lia. }
  split; [exact Hsame|].
  destruct (Hcur Hsame) as (_ & He & _). exact He.
Defined.
